(** * film-api-service: the four request handlers over the films table and
      the film-images bucket

    The handlers of [index.js] (GET, POST, DELETE) and of its later revision
    (the same three plus PUT) are embedded as programs of a small monad that
    threads the two persistent stores, records every remote call in order and
    carries JavaScript exceptions.  The PostgreSQL pool and the Supabase
    storage client are external: what each call answers (fulfilled, rejected,
    resolved with an [error] field) is read from an environment [Env]. *)

From stdpp Require Import base strings list gmap pretty.
From Stdlib Require Import ZArith Ascii Sorting.Sorted.

Local Open Scope string_scope.
Local Open Scope Z_scope.

(** ** JavaScript helpers used by the handlers *)
Module Js.

(** Truthiness of a value that is either [undefined] or a string (a
    header, a multipart text field, [newPublicUrl]): [if (x)] takes the
    branch with the string exactly when it is there and not empty. *)
Definition truthy (x : option string) : option string :=
  match x with
  | Some s => if String.eqb s "" then None else Some s
  | None => None
  end.

(** [s.split(sep)] for a one character separator. *)
Fixpoint split (sep : ascii) (s : string) : list string :=
  match s with
  | EmptyString => [EmptyString]
  | String c s' =>
      if Ascii.eqb c sep then EmptyString :: split sep s'
      else match split sep s' with
           | h :: t => String c h :: t
           | [] => [String c EmptyString]
           end
  end.

(** [a.pop()] used as a storage key: the last element; on the empty
    array [undefined], which [split] never yields. *)
Definition pop (a : list string) : string := default "undefined" (last a).

(** [`${n}-${s}`] *)
Definition template (n : Z) (s : string) : string :=
  pretty n +:+ "-" +:+ s.

End Js.

(** [path.basename(p)] of Node's posix [path] module, one argument: trailing
    slashes are dropped, then the text after the last remaining slash is
    returned. *)
Module Path.

Definition is_slash (c : ascii) : bool := Ascii.eqb c "/"%char.

Fixpoint drop_slashes (l : list ascii) : list ascii :=
  match l with
  | c :: l' => if is_slash c then drop_slashes l' else l
  | [] => []
  end.

Fixpoint until_slash (l : list ascii) : list ascii :=
  match l with
  | c :: l' => if is_slash c then [] else c :: until_slash l'
  | [] => []
  end.

Definition basename (p : string) : string :=
  String.string_of_list_ascii
    (rev (until_slash (drop_slashes (rev (String.list_ascii_of_string p))))).

End Path.

(** ** Data model *)

(** A row of [films(id, name, image_url, user_id, created_at)]. *)
Record Film := mkFilm {
  film_id : string;
  film_name : string;
  image_url : string;
  user_id : string;
  created_at : Z
}.

(** A row of the list query: [id, name, image_url AS "imageUrl",
    (user_id = $1) AS mine]. *)
Record FilmView := mkView {
  view_id : string;
  view_name : string;
  imageUrl : string;
  mine : bool
}.

(** [req.file] as multer's memory storage leaves it. *)
Record File := mkFile {
  originalname : string;
  buffer : list Byte.byte;
  mimetype : string
}.

(** An object of the bucket. *)
Record StoredObject := mkObject {
  object_body : list Byte.byte;
  contentType : string
}.

(** The parts of an Express request the handlers read. *)
Record Request := mkRequest {
  authorization : option string;   (* req.headers.authorization *)
  params_id : string;              (* req.params.id *)
  body_name : option string;       (* req.body.name *)
  file : option File               (* req.file *)
}.

Inductive Json :=
  | ErrorBody (error : string)
  | Rows (rows : list FilmView)
  | SuccessData (message : string) (data : option Film)   (* rows[0] *)
  | SuccessMessage (message : string).

Record Response := mkResponse { status : nat; json : Json }.

(** ** Remote calls *)

Inductive Query :=
  | SelectFilms (userId : string)
  | InsertFilm (name publicUrl userId : string)
  | SelectImageUrl (id userId : string)
  | UpdateName (name id userId : string)
  | UpdateNameImage (name newPublicUrl id userId : string)
  | DeleteFilm (id userId : string).

Inductive StorageCall :=
  | Upload (fileName : string) (body : list Byte.byte) (contentType : string)
  | Remove (fileNames : list string).

Inductive Call :=
  | Sql (q : Query)
  | Storage (c : StorageCall).

(** How a storage promise settles.  The client reports a failed operation in
    the [error] field of the value it resolves with (the handlers read it
    after [upload]); a promise can also reject. *)
Inductive StorageSettled :=
  | StorageOk
  | StorageError
  | StorageRejected.

Inductive Exn :=
  | PgError             (* what a rejected query throws *)
  | StorageFailure      (* the value of a storage result's [error] field *)
  | StorageException.   (* what a rejected storage promise throws *)

(** What the outside world answers during one request. *)
Record Env := mkEnv {
  Date_now : Z;                                  (* Date.now() *)
  getPublicUrl : string -> string;               (* .getPublicUrl(k).data.publicUrl *)
  query_rejects : Query -> bool;                 (* pool.query(q) rejects *)
  storage_settles : StorageCall -> StorageSettled;
  generated_id : string;                         (* id the table assigns on INSERT *)
  generated_created_at : Z                       (* created_at the table assigns *)
}.

(** The persistent state and the calls made so far, oldest first. *)
Record State := mkState {
  films : list Film;
  bucket : gmap string StoredObject;
  calls : list Call
}.

(** ** SQL statements on the table *)
Module SqlSem.

Definition scoped (id userId : string) (f : Film) : Prop :=
  film_id f = id ∧ user_id f = userId.

#[global] Instance scoped_dec id userId f : Decision (scoped id userId f).
Proof. unfold scoped. apply _. Defined.

(** [ORDER BY created_at DESC], as a stable insertion sort. *)
Fixpoint insert_desc (f : Film) (l : list Film) : list Film :=
  match l with
  | [] => [f]
  | g :: l' =>
      if Z.ltb (created_at g) (created_at f) then f :: l
      else g :: insert_desc f l'
  end.

Fixpoint order_by_created_at_desc (l : list Film) : list Film :=
  match l with
  | [] => []
  | f :: l' => insert_desc f (order_by_created_at_desc l')
  end.

Definition project (userId : string) (f : Film) : FilmView :=
  {| view_id := film_id f;
     view_name := film_name f;
     imageUrl := image_url f;
     mine := bool_decide (user_id f = userId) |}.

Definition select_films (userId : string) (t : list Film) : list FilmView :=
  project userId <$> order_by_created_at_desc t.

Definition insert_film (e : Env) (name publicUrl userId : string) : Film :=
  {| film_id := generated_id e;
     film_name := name;
     image_url := publicUrl;
     user_id := userId;
     created_at := generated_created_at e |}.

Definition select_image_url (id userId : string) (t : list Film) : list string :=
  image_url <$> filter (scoped id userId) t.

Definition set_name (name : string) (f : Film) : Film :=
  {| film_id := film_id f;
     film_name := name;
     image_url := image_url f;
     user_id := user_id f;
     created_at := created_at f |}.

Definition set_name_image (name url : string) (f : Film) : Film :=
  {| film_id := film_id f;
     film_name := name;
     image_url := url;
     user_id := user_id f;
     created_at := created_at f |}.

(** [UPDATE films SET ... WHERE id = $ AND user_id = $]: the new table. *)
Definition update_where (id userId : string) (set : Film -> Film)
    (t : list Film) : list Film :=
  (λ f, if decide (scoped id userId f) then set f else f) <$> t.

(** ... and its [RETURNING *]. *)
Definition returning (id userId : string) (set : Film -> Film)
    (t : list Film) : list Film :=
  set <$> filter (scoped id userId) t.

Definition delete_where (id userId : string) (t : list Film) : list Film :=
  filter (λ f, ¬ scoped id userId f) t.

Definition rowCount (id userId : string) (t : list Film) : nat :=
  length (filter (scoped id userId) t).

End SqlSem.

(** ** The handler monad: state, call log and exceptions *)

Inductive Completion (A : Type) :=
  | Normal (a : A)
  | Throw (e : Exn).
Arguments Normal {A} a.
Arguments Throw {A} e.

Definition M (A : Type) : Type := State -> Completion A * State.

#[global] Instance M_ret : MRet M := λ A a s, (Normal a, s).

#[global] Instance M_bind : MBind M := λ A B k m s,
  match m s with
  | (Normal a, s') => k a s'
  | (Throw e, s') => (Throw e, s')
  end.

Definition throw {A} (e : Exn) : M A := λ s, (Throw e, s).

(** [try { m } catch (err) { h err }] *)
Definition try_catch {A} (m : M A) (h : Exn -> M A) : M A := λ s,
  match m s with
  | (Normal a, s') => (Normal a, s')
  | (Throw e, s') => h e s'
  end.

Definition logged (c : Call) (s : State) : State :=
  {| films := films s; bucket := bucket s; calls := calls s ++ [c] |}.

Section Handlers.

Variable env : Env.

(** [await pool.query(text, params)]: rejects, or runs the statement. *)
Definition pool_query {A} (q : Query) (run : list Film -> A * list Film) : M A :=
  λ s,
    let s1 := logged (Sql q) s in
    if query_rejects env q then (Throw PgError, s1)
    else
      let '(a, t) := run (films s1) in
      (Normal a, {| films := t; bucket := bucket s1; calls := calls s1 |}).

(** [await supabase.storage.from('film-images').<op>(...)]: the value of
    the [error] field it resolves with, or a rejection. *)
Definition storage_call (c : StorageCall)
    (effect : gmap string StoredObject -> gmap string StoredObject)
    : M (option Exn) :=
  λ s,
    let s1 := logged (Storage c) s in
    match storage_settles env c with
    | StorageOk =>
        (Normal None,
         {| films := films s1; bucket := effect (bucket s1); calls := calls s1 |})
    | StorageError => (Normal (Some StorageFailure), s1)
    | StorageRejected => (Throw StorageException, s1)
    end.

Definition storage_upload (fileName : string) (body : list Byte.byte)
    (ct : string) : M (option Exn) :=
  storage_call (Upload fileName body ct)
    (insert fileName {| object_body := body; contentType := ct |}).

Definition storage_remove (fileNames : list string) : M (option Exn) :=
  storage_call (Remove fileNames) (λ b, foldr delete b fileNames).

Definition internal_server_error : Response :=
  {| status := 500; json := ErrorBody "Internal Server Error" |}.

Definition authorization_required : Response :=
  {| status := 401; json := ErrorBody "Authorization header is required." |}.

(** [app.get('/films', ...)] *)
Definition get_films (req : Request) : M Response :=
  match Js.truthy (authorization req) with
  | None => mret authorization_required
  | Some userId =>
      try_catch
        (rows ← pool_query (SelectFilms userId)
                  (λ t, (SqlSem.select_films userId t, t));
         mret {| status := 200; json := Rows rows |})
        (λ _, mret internal_server_error)
  end.

(** [app.post('/films', upload.single('image'), ...)] *)
Definition post_films (req : Request) : M Response :=
  match Js.truthy (authorization req), Js.truthy (body_name req), file req with
  | Some userId, Some name, Some file =>
      try_catch
        (let fileName := Js.template (Date_now env) (originalname file) in
         uploadError ← storage_upload fileName (buffer file) (mimetype file);
         match uploadError with
         | Some e => throw e
         | None =>
             let publicUrl := getPublicUrl env fileName in
             rows ← pool_query (InsertFilm name publicUrl userId)
                      (λ t, let row := SqlSem.insert_film env name publicUrl userId in
                            ([row], (t ++ [row])%list));
             mret {| status := 201;
                     json := SuccessData "Film added successfully." (head rows) |}
         end)
        (λ _, mret internal_server_error)
  | _, _, _ =>
      mret {| status := 400;
              json := ErrorBody "Missing required fields: authorization, name, or image." |}
  end.

Definition not_found_update : Response :=
  {| status := 404; json := ErrorBody "Film not found or permission denied." |}.

(** [app.put('/films/:id', upload.single('image'), ...)] *)
Definition put_films (req : Request) : M Response :=
  match Js.truthy (authorization req) with
  | None => mret authorization_required
  | Some userId =>
  match Js.truthy (body_name req) with
  | None => mret {| status := 400; json := ErrorBody "New name is required." |}
  | Some name =>
      let id := params_id req in
      try_catch
        (newPublicUrl ←
           match file req with
           | Some file =>
               oldFilm ← pool_query (SelectImageUrl id userId)
                           (λ t, (SqlSem.select_image_url id userId t, t));
               match oldFilm with
               | oldImageUrl :: _ =>
                   let oldFileName := Js.pop (Js.split "/" oldImageUrl) in
                   storage_remove [oldFileName];; mret ()
               | [] => mret ()
               end;;
               let newFileName := Js.template (Date_now env) (originalname file) in
               uploadError ← storage_upload newFileName (buffer file) (mimetype file);
               match uploadError with
               | Some e => throw e
               | None => mret (Some (getPublicUrl env newFileName))
               end
           | None => mret None
           end;
         rows ←
           match Js.truthy newPublicUrl with
           | Some url =>
               pool_query (UpdateNameImage name url id userId)
                 (λ t, (SqlSem.returning id userId (SqlSem.set_name_image name url) t,
                        SqlSem.update_where id userId (SqlSem.set_name_image name url) t))
           | None =>
               pool_query (UpdateName name id userId)
                 (λ t, (SqlSem.returning id userId (SqlSem.set_name name) t,
                        SqlSem.update_where id userId (SqlSem.set_name name) t))
           end;
         match rows with
         | [] => mret not_found_update
         | row :: _ =>
             mret {| status := 200;
                     json := SuccessData "Film updated successfully." (Some row) |}
         end)
        (λ _, mret internal_server_error)
  end
  end.

Definition not_found_delete : Response :=
  {| status := 404;
     json := ErrorBody "Film not found or you do not have permission to delete it." |}.

(** [app.delete('/films/:id', ...)] *)
Definition delete_films (req : Request) : M Response :=
  match Js.truthy (authorization req) with
  | None => mret authorization_required
  | Some userId =>
      let id := params_id req in
      try_catch
        (filmRows ← pool_query (SelectImageUrl id userId)
                      (λ t, (SqlSem.select_image_url id userId t, t));
         match filmRows with
         | [] => mret not_found_delete
         | imageUrl :: _ =>
             let fileName := Path.basename imageUrl in
             rowCount ← pool_query (DeleteFilm id userId)
                          (λ t, (SqlSem.rowCount id userId t,
                                 SqlSem.delete_where id userId t));
             match rowCount with
             | O => mret not_found_delete
             | S _ =>
                 storage_remove [fileName];;
                 mret {| status := 200;
                         json := SuccessMessage "Film deleted successfully." |}
             end
         end)
        (λ _, mret internal_server_error)
  end.

End Handlers.

(** Running a handler on a table and a bucket, with an empty call log. *)
Definition run (h : M Response) (t : list Film) (b : gmap string StoredObject)
    : Completion Response * State :=
  h {| films := t; bucket := b; calls := [] |}.

(** ** Vocabulary of the statements *)

(** A path segment: no slash in it. *)
Definition slash_free (s : string) : bool :=
  forallb (λ c, negb (Path.is_slash c)) (String.list_ascii_of_string s).

(** [f] comes before [g] under [ORDER BY created_at DESC]. *)
Definition newer_first (f g : Film) : Prop := created_at g ≤ created_at f.

(** The columns no statement of the handlers assigns after the insert. *)
Definition same_identity (f f' : Film) : Prop :=
  film_id f' = film_id f ∧ user_id f' = user_id f ∧ created_at f' = created_at f.

(** The call ends in an exception inside the handler: a rejected query, a
    rejected storage promise, or an upload whose [error] field is set (the
    handlers throw it).  The [error] field of a [remove] is never read. *)
Definition raises (e : Env) (c : Call) : bool :=
  match c with
  | Sql q => query_rejects e q
  | Storage (Upload _ _ _ as u) =>
      match storage_settles e u with StorageOk => false | _ => true end
  | Storage (Remove _ as r) =>
      match storage_settles e r with StorageRejected => true | _ => false end
  end.

(** The call did not do what it was asked to. *)
Definition fails (e : Env) (c : Call) : bool :=
  match c with
  | Sql q => query_rejects e q
  | Storage u =>
      match storage_settles e u with StorageOk => false | _ => true end
  end.

(** The calls of an update that carries an image and runs to its end, in the
    order the handler makes them: the ownership-scoped lookup, the removal
    of the old object when the lookup finds a row, the upload, the update. *)
Definition put_films_removal (id userId : string) (t : list Film) : list Call :=
  match SqlSem.select_image_url id userId t with
  | oldImageUrl :: _ => [Storage (Remove [Js.pop (Js.split "/" oldImageUrl)])]
  | [] => []
  end.

Definition put_films_update (e : Env) (id userId name fileName : string) : Query :=
  match Js.truthy (Some (getPublicUrl e fileName)) with
  | Some url => UpdateNameImage name url id userId
  | None => UpdateName name id userId
  end.

Definition put_films_calls (e : Env) (id userId name : string) (image : File)
    (t : list Film) : list Call :=
  let fileName := Js.template (Date_now e) (originalname image) in
  Sql (SelectImageUrl id userId)
  :: put_films_removal id userId t
  ++ [Storage (Upload fileName (buffer image) (mimetype image));
      Sql (put_films_update e id userId name fileName)].

(** The table after the [UPDATE] of a request with image. *)
Definition put_films_updated (e : Env) (id userId name fileName : string)
    (t : list Film) : list Film :=
  match Js.truthy (Some (getPublicUrl e fileName)) with
  | Some url => SqlSem.update_where id userId (SqlSem.set_name_image name url) t
  | None => SqlSem.update_where id userId (SqlSem.set_name name) t
  end.

(** ** A small deployment used in the examples *)
Module Scenario.

Definition publicUrl (k : string) : string :=
  "https://cdn.test/film-images/" +:+ k.

Definition healthy : Env :=
  {| Date_now := 1700000000000;
     getPublicUrl := publicUrl;
     query_rejects := λ _, false;
     storage_settles := λ _, StorageOk;
     generated_id := "4";
     generated_created_at := 400 |}.

(** Every [remove] resolves with its [error] field set. *)
Definition remove_reports_error : Env :=
  {| Date_now := 1700000000000;
     getPublicUrl := publicUrl;
     query_rejects := λ _, false;
     storage_settles := λ c, match c with
                             | Remove _ => StorageError
                             | Upload _ _ _ => StorageOk
                             end;
     generated_id := "4";
     generated_created_at := 400 |}.

(** Every [upload] resolves with its [error] field set. *)
Definition upload_reports_error : Env :=
  {| Date_now := 1700000000000;
     getPublicUrl := publicUrl;
     query_rejects := λ _, false;
     storage_settles := λ c, match c with
                             | Remove _ => StorageOk
                             | Upload _ _ _ => StorageError
                             end;
     generated_id := "4";
     generated_created_at := 400 |}.

Definition matrix : Film := mkFilm "1" "Matrix" (publicUrl "100-matrix.png") "u1" 100.
Definition alien : Film := mkFilm "2" "Alien" (publicUrl "200-alien.png") "u2" 200.
Definition heat : Film := mkFilm "3" "Heat" (publicUrl "300-heat.png") "u1" 300.

Definition table : list Film := [matrix; alien; heat].

Definition png : StoredObject := mkObject [] "image/png".

Definition objects : gmap string StoredObject :=
  <["100-matrix.png" := png]> (<["200-alien.png" := png]> (<["300-heat.png" := png]> ∅)).

Definition poster : File := mkFile "dune.png" [] "image/png".

Definition request (userId : string) (id : string) (name : option string)
    (image : option File) : Request :=
  {| authorization := Some userId; params_id := id;
     body_name := name; file := image |}.

Definition anonymous (id : string) (name : option string)
    (image : option File) : Request :=
  {| authorization := None; params_id := id; body_name := name; file := image |}.

End Scenario.

(** ** Facts about the JavaScript helpers *)
Section JsFacts.

Lemma truthy_None (x : option string) :
  Js.truthy x = None ↔ x = None ∨ x = Some "".
Proof.
  destruct x as [s|]; simpl; [|by split; [left|]].
  destruct (String.eqb_spec s "") as [->|Hs]; split; try done.
  - by right.
  - intros [?|[=]]; done.
Qed.

Lemma truthy_Some (x : option string) (s : string) :
  Js.truthy x = Some s ↔ x = Some s ∧ s ≠ "".
Proof.
  destruct x as [s'|]; simpl; [|by split; [|intros []]].
  destruct (String.eqb_spec s' "") as [->|Hs]; split; try done.
  - by intros [[= <-] ?].
  - by intros [= <-].
  - by intros [[= <-] ?].
Qed.

Lemma split_nonempty (sep : ascii) (s : string) : Js.split sep s ≠ [].
Proof.
  destruct s as [|c s]; simpl; [done|].
  destruct (Ascii.eqb c sep); [done|].
  by destruct (Js.split sep s).
Qed.

(** A string without the separator is the only piece. *)
Lemma split_free (sep : ascii) (s : string) :
  forallb (λ c, negb (Ascii.eqb c sep)) (String.list_ascii_of_string s) = true →
  Js.split sep s = [s].
Proof.
  induction s as [|c s IH]; simpl; [done|].
  intros [Hc Hs]%andb_true_iff.
  destruct (Ascii.eqb c sep); [done|].
  by rewrite IH.
Qed.

(** Splitting [a ++ sep ++ b] ends with the pieces of [b]. *)
Lemma split_app_sep (sep : ascii) (a b : string) :
  ∃ pre, pre ≠ [] ∧
    Js.split sep (a +:+ String sep b) = (pre ++ Js.split sep b)%list.
Proof.
  induction a as [|c a (pre & Hpre & IH)]; simpl.
  - exists [""]. by rewrite Ascii.eqb_refl.
  - rewrite IH. destruct (Ascii.eqb c sep).
    + by exists ("" :: pre).
    + destruct pre as [|p ps]; [done|]. by exists (String c p :: ps).
Qed.

(** The last piece of [dir/seg] is [seg] when [seg] has no separator. *)
Lemma pop_split_segment (sep : ascii) (dir seg : string) :
  forallb (λ c, negb (Ascii.eqb c sep)) (String.list_ascii_of_string seg) = true →
  Js.pop (Js.split sep (dir +:+ String sep seg)) = seg.
Proof.
  intros Hseg. unfold Js.pop.
  destruct (split_app_sep sep dir seg) as (pre & _ & ->).
  by rewrite (split_free _ _ Hseg), last_snoc.
Qed.

End JsFacts.

Section PathFacts.

Lemma list_ascii_of_string_app (a b : string) :
  String.list_ascii_of_string (a +:+ b)
  = (String.list_ascii_of_string a ++ String.list_ascii_of_string b)%list.
Proof. induction a as [|c a IH]; simpl; [done|]. by rewrite IH. Qed.

Lemma until_slash_app (l k : list ascii) :
  forallb (λ c, negb (Path.is_slash c)) l = true →
  Path.until_slash (l ++ "/"%char :: k) = l.
Proof.
  induction l as [|c l IH]; simpl; [done|].
  intros [Hc Hl]%andb_true_iff.
  destruct (Path.is_slash c); [done|]. by rewrite IH.
Qed.

Lemma forallb_rev {A} (p : A → bool) (l : list A) :
  forallb p (rev l) = forallb p l.
Proof.
  induction l as [|x l IH]; simpl; [done|].
  rewrite forallb_app, IH. simpl. rewrite andb_true_r. apply andb_comm.
Qed.

(** [basename] of [dir/seg] is [seg] when [seg] is a proper segment. *)
Lemma basename_segment (dir seg : string) :
  seg ≠ "" → slash_free seg = true →
  Path.basename (dir +:+ String "/"%char seg) = seg.
Proof.
  intros Hne Hfree. unfold Path.basename, slash_free in *.
  rewrite list_ascii_of_string_app. simpl.
  rewrite rev_app_distr. simpl. rewrite <- app_assoc. simpl.
  set (l := String.list_ascii_of_string seg) in *.
  assert (Hl : l ≠ []).
  { subst l. destruct seg; [done|discriminate]. }
  assert (Hr : forallb (λ c, negb (Path.is_slash c)) (rev l) = true)
    by by rewrite forallb_rev.
  assert (Hd : ∀ k, Path.drop_slashes (rev l ++ k) = (rev l ++ k)%list).
  { intros k. destruct (rev l) as [|c r] eqn:E.
    - apply (f_equal (@rev ascii)) in E. rewrite rev_involutive in E. done.
    - simpl in *. apply andb_true_iff in Hr as [Hc _].
      by destruct (Path.is_slash c). }
  rewrite Hd, until_slash_app, rev_involutive by done.
  apply String.string_of_list_ascii_of_string.
Qed.

End PathFacts.

(** ** Facts about the SQL statements *)
Section SqlFacts.

Import SqlSem.

Lemma insert_desc_perm (f : Film) (l : list Film) :
  insert_desc f l ≡ₚ f :: l.
Proof.
  induction l as [|g l IH]; simpl; [done|].
  destruct (created_at g <? created_at f); [done|].
  rewrite IH. apply Permutation_swap.
Qed.

Lemma order_by_perm (t : list Film) : order_by_created_at_desc t ≡ₚ t.
Proof.
  induction t as [|f t IH]; simpl; [done|].
  by rewrite insert_desc_perm, IH.
Qed.

Lemma insert_desc_sorted (f : Film) (l : list Film) :
  StronglySorted newer_first l → StronglySorted newer_first (insert_desc f l).
Proof.
  induction 1 as [|g l Hl IH Hg]; simpl.
  - repeat constructor.
  - destruct (Z.ltb_spec (created_at g) (created_at f)) as [Hlt|Hge].
    + constructor; [by constructor|].
      constructor; [unfold newer_first; lia|].
      eapply Forall_impl; [exact Hg|]. unfold newer_first. intros h ?. lia.
    + constructor; [done|].
      rewrite insert_desc_perm. constructor; [exact Hge|done].
Qed.

Lemma order_by_sorted (t : list Film) :
  StronglySorted newer_first (order_by_created_at_desc t).
Proof.
  induction t as [|f t IH]; simpl; [constructor|].
  by apply insert_desc_sorted.
Qed.

Lemma project_spec (userId : string) (f : Film) :
  view_id (project userId f) = film_id f
  ∧ view_name (project userId f) = film_name f
  ∧ imageUrl (project userId f) = image_url f
  ∧ (mine (project userId f) = true ↔ user_id f = userId).
Proof. repeat split; simpl; by rewrite ?bool_decide_eq_true. Qed.

(** No row under the ownership filter: the scoped statements do nothing. *)
Lemma update_where_none id userId set (t : list Film) :
  filter (scoped id userId) t = [] → update_where id userId set t = t.
Proof.
  unfold update_where. induction t as [|f t IH]; [done|].
  rewrite filter_cons, fmap_cons. case_decide; [done|].
  intros Ht. f_equal. by apply IH.
Qed.

Lemma delete_where_scoped id userId (t : list Film) :
  filter (scoped id userId) (delete_where id userId t) = [].
Proof.
  unfold delete_where. induction t as [|f t IH]; simpl; [done|].
  rewrite filter_cons. case_decide as Hf; [|done].
  rewrite filter_cons. by case_decide.
Qed.

Lemma select_image_url_none id userId (t : list Film) :
  filter (scoped id userId) t = [] → select_image_url id userId t = [].
Proof. unfold select_image_url. by intros ->. Qed.

Lemma returning_none id userId set (t : list Film) :
  filter (scoped id userId) t = [] → returning id userId set t = [].
Proof. unfold returning. by intros ->. Qed.

Lemma rowCount_select id userId (t : list Film) :
  rowCount id userId t = length (select_image_url id userId t).
Proof. unfold rowCount, select_image_url. by rewrite length_fmap. Qed.

Lemma delete_where_none id userId (t : list Film) :
  filter (scoped id userId) t = [] → delete_where id userId t = t.
Proof.
  unfold delete_where. induction t as [|f t IH]; [done|].
  rewrite !filter_cons. case_decide; [done|]. case_decide; [|done].
  intros Ht. f_equal. by apply IH.
Qed.

Lemma not_owned_filter id userId (t : list Film) :
  (∀ f, f ∈ t → film_id f = id → user_id f ≠ userId) ↔
  filter (scoped id userId) t = [].
Proof.
  unfold scoped. induction t as [|g t IH]; [by split; [|intros _ f ?%elem_of_nil]|].
  rewrite filter_cons. case_decide as Hg.
  - split; [|done]. intros H. destruct Hg as [Hid Hu].
    by destruct (H g (list_elem_of_here _ _) Hid).
  - rewrite <- IH. split.
    + intros H f Hf. apply H. by right.
    + intros H f [->|Hf]%elem_of_cons Hid; [|by apply H].
      intros Hu. by apply Hg.
Qed.

Lemma update_where_identity id userId set (t : list Film) :
  (∀ f, same_identity f (set f)) →
  Forall2 same_identity t (update_where id userId set t).
Proof.
  intros Hset. unfold update_where.
  induction t as [|f t IH]; simpl; constructor; [|done].
  case_decide; [apply Hset|done].
Qed.

Lemma update_where_name_only id userId name (t : list Film) :
  Forall2 (λ f f', same_identity f f' ∧ image_url f' = image_url f)
    t (update_where id userId (set_name name) t).
Proof.
  unfold update_where.
  induction t as [|f t IH]; simpl; constructor; [|done].
  by case_decide.
Qed.

End SqlFacts.

(** ** The handlers *)

#[local] Arguments Js.truthy : simpl never.
#[local] Arguments Js.template : simpl never.
#[local] Arguments Js.pop : simpl never.
#[local] Arguments Js.split : simpl never.
#[local] Arguments Path.basename : simpl never.
#[local] Arguments SqlSem.select_films : simpl never.
#[local] Arguments SqlSem.select_image_url : simpl never.
#[local] Arguments SqlSem.returning : simpl never.
#[local] Arguments SqlSem.update_where : simpl never.
#[local] Arguments SqlSem.delete_where : simpl never.
#[local] Arguments SqlSem.rowCount : simpl never.
#[local] Arguments SqlSem.insert_film : simpl never.

(** Expose the state transformer of a handler. *)
Ltac unfold_handler :=
  unfold run, get_films, post_films, put_films, delete_films;
  unfold try_catch, pool_query, storage_upload, storage_remove, storage_call,
    throw, logged;
  unfold mbind, M_bind, mret, M_ret; simpl.

(** One case distinction on what the request holds, on what a call answers
    or on what a statement returns. *)
Ltac step :=
  match goal with
  | H : ?x = _ |- context [match ?x with _ => _ end] => rewrite H
  | H : ?x = _ |- context [if ?x then _ else _] => rewrite H
  | |- context [match Js.truthy ?x with _ => _ end] =>
      destruct (Js.truthy x) eqn:?
  | |- context [match file ?r with _ => _ end] =>
      destruct (file r) eqn:?
  | |- context [if query_rejects ?e ?q then _ else _] =>
      destruct (query_rejects e q) eqn:?
  | |- context [match storage_settles ?e ?c with _ => _ end] =>
      destruct (storage_settles e c) eqn:?
  | |- context [match SqlSem.select_image_url ?i ?u ?t with _ => _ end] =>
      destruct (SqlSem.select_image_url i u t) eqn:?
  | |- context [match SqlSem.returning ?i ?u ?f ?t with _ => _ end] =>
      destruct (SqlSem.returning i u f t) eqn:?
  | |- context [match SqlSem.rowCount ?i ?u ?t with _ => _ end] =>
      destruct (SqlSem.rowCount i u t) eqn:?
  end; simpl.

(** Rewrite with what the calls are known to answer. *)
Ltac use_oracle :=
  repeat match goal with
  | H : query_rejects ?e ?q = _, H' : context [query_rejects ?e ?q] |- _ =>
      rewrite H in H'
  | H : storage_settles ?e ?c = _, H' : context [storage_settles ?e ?c] |- _ =>
      rewrite H in H'
  | H : query_rejects ?e ?q = _ |- context [query_rejects ?e ?q] => rewrite H
  | H : storage_settles ?e ?c = _ |- context [storage_settles ?e ?c] => rewrite H
  end.

(** A call of a given log raised although none does. *)
Ltac none_raises H :=
  apply Forall_forall in H; decompose_Forall_hyps; simpl in *; use_oracle;
  done.

(** No call of a given log raises. *)
Ltac no_call_raises :=
  let c := fresh "c" in
  let Hc := fresh "Hc" in
  let Hr := fresh "Hr" in
  intros c Hc Hr; exfalso; revert Hr; apply not_true_iff_false;
  revert c Hc; apply Forall_forall; repeat constructor; simpl;
  use_oracle; done.

Section ListFilms.

Import SqlSem.

(** C1. A list request with a non-empty caller identifier, whose query the
    pool answers, gets status 200 and one entry per row of the table
    whatever its owner, newest first, each entry carrying the row's id,
    name and image URL and [mine] true exactly when the row's owner is the
    caller.  Neither store changes. *)
Theorem get_films_lists_all (env : Env) (req : Request) (userId : string)
    (t : list Film) (b : gmap string StoredObject) :
  authorization req = Some userId → userId ≠ "" →
  query_rejects env (SelectFilms userId) = false →
  ∃ (sorted : list Film) (rows : list FilmView),
    run (get_films env req) t b
      = (Normal {| status := 200; json := Rows rows |},
         {| films := t; bucket := b; calls := [Sql (SelectFilms userId)] |})
    ∧ sorted ≡ₚ t
    ∧ StronglySorted newer_first sorted
    ∧ Forall2 (λ f v,
          view_id v = film_id f ∧ view_name v = film_name f
          ∧ imageUrl v = image_url f
          ∧ (mine v = true ↔ user_id f = userId)) sorted rows.
Proof.
  intros Hauth Hne Hok.
  exists (order_by_created_at_desc t), (select_films userId t).
  split; [|split; [apply order_by_perm|split; [apply order_by_sorted|]]].
  - unfold_handler.
    rewrite (proj2 (truthy_Some _ _) (conj Hauth Hne)). simpl.
    by rewrite Hok.
  - unfold select_films. apply Forall2_fmap_r, Forall_Forall2_diag.
    apply Forall_forall. intros f _. apply project_spec.
Qed.

Lemma get_films_lists_all_witness :
  ∃ sorted rows,
    run (get_films Scenario.healthy (Scenario.request "u1" "" None None))
        Scenario.table Scenario.objects
      = (Normal {| status := 200; json := Rows rows |},
         {| films := Scenario.table; bucket := Scenario.objects;
            calls := [Sql (SelectFilms "u1")] |})
    ∧ sorted ≡ₚ Scenario.table
    ∧ StronglySorted newer_first sorted
    ∧ Forall2 (λ f v,
          view_id v = film_id f ∧ view_name v = film_name f
          ∧ imageUrl v = image_url f
          ∧ (mine v = true ↔ user_id f = "u1")) sorted rows.
Proof.
  apply (get_films_lists_all Scenario.healthy
           (Scenario.request "u1" "" None None) "u1");
    [reflexivity | discriminate | reflexivity].
Defined.

(** Rows created at 100 < 200 < 300 are listed as 300, 200, 100, with
    [mine] computed for the caller. *)
Example get_films_order :
  fst (run (get_films Scenario.healthy (Scenario.request "u1" "" None None))
         Scenario.table Scenario.objects)
  = Normal {| status := 200;
              json := Rows [SqlSem.project "u1" Scenario.heat;
                            SqlSem.project "u1" Scenario.alien;
                            SqlSem.project "u1" Scenario.matrix] |}.
Proof. reflexivity. Qed.

End ListFilms.

Section Validation.

(** C2. A list, update or delete request whose authorization header is
    absent or empty is answered 401; the handler makes no call to the
    database or to the object store, so the table and the bucket are the
    ones it started with. *)
Theorem unauthorized_no_call (env : Env) (req : Request)
    (t : list Film) (b : gmap string StoredObject) :
  authorization req = None ∨ authorization req = Some "" →
  status authorization_required = 401%nat
  ∧ Forall (λ handler : Env → Request → M Response,
      run (handler env req) t b
        = (Normal authorization_required,
           {| films := t; bucket := b; calls := [] |}))
      [get_films; put_films; delete_films].
Proof.
  intros Hauth%truthy_None. split; [done|].
  repeat constructor; unfold_handler; by rewrite Hauth.
Qed.

Lemma unauthorized_no_call_witness :
  status authorization_required = 401%nat
  ∧ Forall (λ handler : Env → Request → M Response,
      run (handler Scenario.healthy
             (Scenario.anonymous "1" (Some "Dune") (Some Scenario.poster)))
          Scenario.table Scenario.objects
        = (Normal authorization_required,
           {| films := Scenario.table; bucket := Scenario.objects; calls := [] |}))
      [get_films; put_films; delete_films].
Proof.
  apply (unauthorized_no_call Scenario.healthy
           (Scenario.anonymous "1" (Some "Dune") (Some Scenario.poster))).
  left. reflexivity.
Defined.

(** C3. A create request in which the caller identifier or the name is
    absent or empty, or the image file is absent, is answered 400; nothing
    is uploaded and nothing is inserted, no call is made at all. *)
Theorem post_films_missing_field (env : Env) (req : Request)
    (t : list Film) (b : gmap string StoredObject) :
  (authorization req = None ∨ authorization req = Some "")
  ∨ (body_name req = None ∨ body_name req = Some "")
  ∨ file req = None →
  ∃ message,
    run (post_films env req) t b
      = (Normal {| status := 400; json := ErrorBody message |},
         {| films := t; bucket := b; calls := [] |}).
Proof.
  intros H. eexists. unfold_handler.
  destruct H as [Hu%truthy_None|[Hn%truthy_None|Hf]].
  - by rewrite Hu.
  - rewrite Hn. by destruct (Js.truthy (authorization req)).
  - rewrite Hf.
    by destruct (Js.truthy (authorization req)), (Js.truthy (body_name req)).
Qed.

Lemma post_films_missing_field_witness :
  ∃ message,
    run (post_films Scenario.healthy
           (Scenario.request "u1" "" (Some "") (Some Scenario.poster)))
        Scenario.table Scenario.objects
      = (Normal {| status := 400; json := ErrorBody message |},
         {| films := Scenario.table; bucket := Scenario.objects; calls := [] |}).
Proof.
  apply (post_films_missing_field Scenario.healthy
           (Scenario.request "u1" "" (Some "") (Some Scenario.poster))).
  right. left. right. reflexivity.
Defined.

End Validation.

Section CreateFilm.

(** C4. In a create request that passes validation the upload is the first
    call and the insert, if it is made at all, the second.  An upload that
    fails (its result carries an error, or its promise rejects) ends the
    request with the 500 answer, without an insert and with the table as
    it was.  When the upload and the insert both succeed the answer is 201
    with the inserted row as data; that row holds the supplied name, the
    public URL of the uploaded object and the caller as owner, and it is
    the one row added to the table. *)
Theorem post_films_upload_then_insert (env : Env) (req : Request)
    (userId name : string) (image : File)
    (t : list Film) (b : gmap string StoredObject) :
  authorization req = Some userId → userId ≠ "" →
  body_name req = Some name → name ≠ "" →
  file req = Some image →
  let fileName := Js.template (Date_now env) (originalname image) in
  let upload := Upload fileName (buffer image) (mimetype image) in
  let publicUrl := getPublicUrl env fileName in
  let insert := InsertFilm name publicUrl userId in
  let row := {| film_id := generated_id env; film_name := name;
                image_url := publicUrl; user_id := userId;
                created_at := generated_created_at env |} in
  let result := run (post_films env req) t b in
  (calls result.2 = [Storage upload]
   ∨ calls result.2 = [Storage upload; Sql insert])
  ∧ (storage_settles env upload ≠ StorageOk →
       result = (Normal internal_server_error,
                 {| films := t; bucket := b; calls := [Storage upload] |}))
  ∧ (storage_settles env upload = StorageOk →
     query_rejects env insert = false →
       result = (Normal {| status := 201;
                           json := SuccessData "Film added successfully." (Some row) |},
                 {| films := t ++ [row];
                    bucket := <[fileName := {| object_body := buffer image;
                                               contentType := mimetype image |}]> b;
                    calls := [Storage upload; Sql insert] |})).
Proof.
  intros Hu Hu' Hn Hn' Hf. simpl. unfold_handler.
  rewrite (proj2 (truthy_Some _ _) (conj Hu Hu')),
          (proj2 (truthy_Some _ _) (conj Hn Hn')), Hf. simpl.
  destruct (storage_settles env _) eqn:Hup; simpl.
  - destruct (query_rejects env _) eqn:Hins; simpl.
    + split; [by right|]. split; [done|]. done.
    + split; [by right|]. split; [done|]. done.
  - split; [by left|]. split; [done|]. done.
  - split; [by left|]. split; [done|]. done.
Qed.

Lemma post_films_upload_then_insert_witness :
  let req := Scenario.request "u1" "" (Some "Dune") (Some Scenario.poster) in
  let upload := Upload "1700000000000-dune.png" [] "image/png" in
  let publicUrl := Scenario.publicUrl "1700000000000-dune.png" in
  let insert := InsertFilm "Dune" publicUrl "u1" in
  let row := mkFilm "4" "Dune" publicUrl "u1" 400 in
  let result := run (post_films Scenario.healthy req) Scenario.table Scenario.objects in
  (calls result.2 = [Storage upload]
   ∨ calls result.2 = [Storage upload; Sql insert])
  ∧ (storage_settles Scenario.healthy upload ≠ StorageOk →
       result = (Normal internal_server_error,
                 {| films := Scenario.table; bucket := Scenario.objects;
                    calls := [Storage upload] |}))
  ∧ (storage_settles Scenario.healthy upload = StorageOk →
     query_rejects Scenario.healthy insert = false →
       result = (Normal {| status := 201;
                           json := SuccessData "Film added successfully." (Some row) |},
                 {| films := Scenario.table ++ [row];
                    bucket := <["1700000000000-dune.png" := Scenario.png]> Scenario.objects;
                    calls := [Storage upload; Sql insert] |})).
Proof.
  apply (post_films_upload_then_insert Scenario.healthy
           (Scenario.request "u1" "" (Some "Dune") (Some Scenario.poster))
           "u1" "Dune" Scenario.poster);
    [reflexivity | discriminate | reflexivity | discriminate | reflexivity].
Defined.

(** The same request when the upload reports an error: 500, no insert. *)
Example post_films_upload_error :
  run (post_films Scenario.upload_reports_error
         (Scenario.request "u1" "" (Some "Dune") (Some Scenario.poster)))
      Scenario.table Scenario.objects
  = (Normal internal_server_error,
     {| films := Scenario.table; bucket := Scenario.objects;
        calls := [Storage (Upload "1700000000000-dune.png" [] "image/png")] |}).
Proof. reflexivity. Qed.

End CreateFilm.

Section UpdateFilm.

Import SqlSem.

(** What an update can leave in the table. *)
Lemma put_films_table (env : Env) (req : Request)
    (t : list Film) (b : gmap string StoredObject) :
  let s' := (run (put_films env req) t b).2 in
  films s' = t
  ∨ (∃ userId name,
       films s' = update_where (params_id req) userId (set_name name) t)
  ∨ (∃ userId name url,
       is_Some (file req)
       ∧ films s' = update_where (params_id req) userId (set_name_image name url) t).
Proof.
  simpl. unfold_handler.
  repeat step; try (by left); try (by right; left; eauto).
  all: right; right; eauto.
Qed.

Lemma put_films_name_only (env : Env) (req : Request)
    (t : list Film) (b : gmap string StoredObject) :
  file req = None →
  let s' := (run (put_films env req) t b).2 in
  bucket s' = b
  ∧ (films s' = t
     ∨ ∃ userId name,
         films s' = update_where (params_id req) userId (set_name name) t).
Proof.
  intros Hf. simpl. unfold_handler. rewrite Hf.
  repeat step; split; try done; try (by left); by right; eauto.
Qed.

(** C5. Whatever an update request holds and however its calls end, every
    row of the table keeps its id, its owner and its creation time.  When
    the request carries no image, every row keeps its image URL as well and
    the bucket is untouched: the name is the only thing an update without
    image can change. *)
Theorem put_films_frame (env : Env) (req : Request)
    (t : list Film) (b : gmap string StoredObject) :
  let s' := (run (put_films env req) t b).2 in
  Forall2 same_identity t (films s')
  ∧ (file req = None →
       Forall2 (λ f f', same_identity f f' ∧ image_url f' = image_url f)
         t (films s')
       ∧ bucket s' = b).
Proof.
  simpl. split.
  - destruct (put_films_table env req t b)
      as [->|[(u & n & ->)|(u & n & url & _ & ->)]].
    + by apply Forall_Forall2_diag, Forall_forall.
    + by apply update_where_identity.
    + by apply update_where_identity.
  - intros Hf.
    destruct (put_films_name_only env req t b Hf) as [Hb [->|(u & n & ->)]];
      (split; [|done]).
    + by apply Forall_Forall2_diag, Forall_forall.
    + apply update_where_name_only.
Qed.

Lemma put_films_frame_witness :
  let req := Scenario.request "u1" "1" (Some "Matrix Reloaded") None in
  let s' := (run (put_films Scenario.healthy req) Scenario.table Scenario.objects).2 in
  Forall2 same_identity Scenario.table (films s')
  ∧ Forall2 (λ f f', same_identity f f' ∧ image_url f' = image_url f)
      Scenario.table (films s')
  ∧ bucket s' = Scenario.objects.
Proof.
  destruct (put_films_frame Scenario.healthy
              (Scenario.request "u1" "1" (Some "Matrix Reloaded") None)
              Scenario.table Scenario.objects) as [Hid Himg].
  split; [exact Hid|]. apply Himg. reflexivity.
Defined.

(** The owner renames film 1: 200, the row comes back renamed, the other
    rows and the bucket stay. *)
Example put_films_rename :
  run (put_films Scenario.healthy
         (Scenario.request "u1" "1" (Some "Matrix Reloaded") None))
      Scenario.table Scenario.objects
  = (Normal {| status := 200;
               json := SuccessData "Film updated successfully."
                         (Some (set_name "Matrix Reloaded" Scenario.matrix)) |},
     {| films := [set_name "Matrix Reloaded" Scenario.matrix;
                  Scenario.alien; Scenario.heat];
        bucket := Scenario.objects;
        calls := [Sql (UpdateName "Matrix Reloaded" "1" "u1")] |}).
Proof. reflexivity. Qed.

(** C6, as the handler has it.  In an update that carries an image and
    passes validation, the calls are made in the order lookup, removal of
    the old object (when the ownership-scoped lookup finds a row), upload,
    update, and the request may stop after any of them; the table changes
    only when the update, the last call, has been made.  When a call
    raises (a query rejects, the upload reports an error or rejects, the
    removal rejects) the answer is 500 and the table is as it was.  An
    error that the removal only reports in its result is not read: as long
    as no call raises, the handler goes on to the upload and to the update
    of the table and answers 200 or 404. *)
Theorem put_films_image_order (env : Env) (req : Request)
    (userId name : string) (image : File)
    (t : list Film) (b : gmap string StoredObject) :
  authorization req = Some userId → userId ≠ "" →
  body_name req = Some name → name ≠ "" →
  file req = Some image →
  let id := params_id req in
  let fileName := Js.template (Date_now env) (originalname image) in
  let all := put_films_calls env id userId name image t in
  let result := run (put_films env req) t b in
  calls result.2 `prefix_of` all
  ∧ (films result.2 = t ∨ calls result.2 = all)
  ∧ (∀ c, c ∈ calls result.2 → raises env c = true →
       result.1 = Normal internal_server_error ∧ films result.2 = t)
  ∧ ((∀ c, c ∈ all → raises env c = false) →
       calls result.2 = all
       ∧ films result.2 = put_films_updated env id userId name fileName t
       ∧ ∃ r, result.1 = Normal r ∧ (status r = 200%nat ∨ status r = 404%nat)).
Proof.
  intros Hu Hu' Hn Hn' Hf. simpl.
  unfold put_films_calls, put_films_removal, put_films_update, put_films_updated.
  unfold_handler.
  rewrite (proj2 (truthy_Some _ _) (conj Hu Hu')),
          (proj2 (truthy_Some _ _) (conj Hn Hn')), Hf. simpl.
  repeat step.
  all: split; [by eexists|].
  all: split; [first [by left | by right]|].
  all: split.
  all: try (intros c Hc Hr; by split).
  all: try (intros Hall; none_raises Hall).
  all: try no_call_raises.
  all: intros _; repeat split; eauto.
Qed.

Lemma put_films_image_order_witness :
  let env := Scenario.remove_reports_error in
  let req := Scenario.request "u1" "1" (Some "Matrix Reloaded") (Some Scenario.poster) in
  let all := put_films_calls env "1" "u1" "Matrix Reloaded" Scenario.poster
               Scenario.table in
  let result := run (put_films env req) Scenario.table Scenario.objects in
  calls result.2 `prefix_of` all
  ∧ (films result.2 = Scenario.table ∨ calls result.2 = all)
  ∧ (∀ c, c ∈ calls result.2 → raises env c = true →
       result.1 = Normal internal_server_error ∧ films result.2 = Scenario.table)
  ∧ ((∀ c, c ∈ all → raises env c = false) →
       calls result.2 = all
       ∧ films result.2
         = put_films_updated env "1" "u1" "Matrix Reloaded"
             "1700000000000-dune.png" Scenario.table
       ∧ ∃ r, result.1 = Normal r ∧ (status r = 200%nat ∨ status r = 404%nat)).
Proof.
  apply (put_films_image_order Scenario.remove_reports_error
           (Scenario.request "u1" "1" (Some "Matrix Reloaded") (Some Scenario.poster))
           "u1" "Matrix Reloaded" Scenario.poster);
    [reflexivity | discriminate | reflexivity | discriminate | reflexivity].
Defined.

(** C6 as worded fails: the removal of the old object is a storage
    operation of this request and it fails, yet the answer is 200 and the
    row has been rewritten. *)
Lemma put_films_remove_error_ignored :
  let env := Scenario.remove_reports_error in
  let req := Scenario.request "u1" "1" (Some "Matrix Reloaded") (Some Scenario.poster) in
  let removal := Storage (Remove ["100-matrix.png"]) in
  let url := Scenario.publicUrl "1700000000000-dune.png" in
  let result := run (put_films env req) Scenario.table Scenario.objects in
  removal ∈ calls result.2
  ∧ fails env removal = true
  ∧ result.1 = Normal {| status := 200;
                         json := SuccessData "Film updated successfully."
                                   (Some (mkFilm "1" "Matrix Reloaded" url "u1" 100)) |}
  ∧ films result.2 = [mkFilm "1" "Matrix Reloaded" url "u1" 100;
                      Scenario.alien; Scenario.heat]
  ∧ ¬ (result.1 = Normal internal_server_error ∧ films result.2 = Scenario.table).
Proof.
  simpl. split; [|split; [|split; [|split]]].
  - vm_compute. apply list_elem_of_further, list_elem_of_here.
  - reflexivity.
  - reflexivity.
  - reflexivity.
  - intros [H _]. vm_compute in H. discriminate H.
Qed.

End UpdateFilm.

Section Ownership.

Import SqlSem.

(** Rewrite the scoped statements on a table without a row of the caller
    under the given id. *)
Ltac nothing_scoped :=
  repeat match goal with
  | H : filter (scoped ?i ?u) ?t = [] |- context [select_image_url ?i ?u ?t] =>
      rewrite (select_image_url_none i u t H)
  | H : filter (scoped ?i ?u) ?t = [] |- context [returning ?i ?u ?s ?t] =>
      rewrite (returning_none i u s t H)
  | H : filter (scoped ?i ?u) ?t = [] |- context [update_where ?i ?u ?s ?t] =>
      rewrite (update_where_none i u s t H)
  | H : filter (scoped ?i ?u) ?t = [] |- context [delete_where ?i ?u ?t] =>
      rewrite (delete_where_none i u t H)
  | H : filter (scoped ?i ?u) ?t = [] |- context [rowCount ?i ?u ?t] =>
      rewrite (rowCount_select i u t), (select_image_url_none i u t H)
  | H : filter (scoped ?i ?u) ?t = [], H' : returning ?i ?u ?s ?t = _ :: _ |- _ =>
      by rewrite (returning_none i u s t H) in H'
  | H : filter (scoped ?i ?u) ?t = [], H' : select_image_url ?i ?u ?t = _ :: _ |- _ =>
      by rewrite (select_image_url_none i u t H) in H'
  | H : filter (scoped ?i ?u) ?t = [], H' : rowCount ?i ?u ?t = S _ |- _ =>
      by rewrite (rowCount_select i u t), (select_image_url_none i u t H) in H'
  end; simpl.

(** C7. An update or delete request that passes validation and whose
    target row does not exist or belongs to another caller (no row with
    that id is owned by the caller) leaves the table as it was, whatever
    the calls answer; when no call raises, the answer is 404.  The answer
    is the same for every table without such a row, so a caller cannot
    tell a missing row from a row of somebody else. *)
Theorem not_owned_is_not_found (env : Env) (req : Request)
    (userId : string) (t : list Film) (b : gmap string StoredObject) :
  authorization req = Some userId → userId ≠ "" →
  (∀ f, f ∈ t → film_id f = params_id req → user_id f ≠ userId) →
  let not_found (handler : Env → Request → M Response) :=
    let result := run (handler env req) t b in
    films result.2 = t
    ∧ ((∀ c, c ∈ calls result.2 → raises env c = false) →
         ∃ r, result.1 = Normal r ∧ status r = 404%nat)
    ∧ (∀ t2 b2,
         (∀ f, f ∈ t2 → film_id f = params_id req → user_id f ≠ userId) →
         (run (handler env req) t2 b2).1 = result.1) in
  (∀ name, body_name req = Some name → name ≠ "" → not_found put_films)
  ∧ not_found delete_films.
Proof.
  intros Hu Hu' Hnone%not_owned_filter.
  pose proof (proj2 (truthy_Some _ _) (conj Hu Hu')) as Hauth.
  simpl. split; [intros name Hn Hn'|].
  - pose proof (proj2 (truthy_Some _ _) (conj Hn Hn')) as Hname.
    split; [|split].
    + unfold_handler. rewrite Hauth, Hname. simpl.
      destruct (file req); simpl; nothing_scoped; repeat step; by nothing_scoped.
    + unfold_handler. rewrite Hauth, Hname. simpl.
      destruct (file req); simpl; nothing_scoped; repeat step; nothing_scoped;
        try (intros Hall; none_raises Hall); eauto.
    + intros t2 b2 H2%not_owned_filter.
      unfold_handler. rewrite Hauth, Hname. simpl.
      destruct (file req); simpl; nothing_scoped; repeat step; by nothing_scoped.
  - split; [|split].
    + unfold_handler. rewrite Hauth. simpl.
      nothing_scoped; repeat step; by nothing_scoped.
    + unfold_handler. rewrite Hauth. simpl.
      nothing_scoped; repeat step; nothing_scoped;
        try (intros Hall; none_raises Hall); eauto.
    + intros t2 b2 H2%not_owned_filter.
      unfold_handler. rewrite Hauth. simpl.
      nothing_scoped; repeat step; by nothing_scoped.
Qed.

Lemma not_owned_is_not_found_witness :
  let env := Scenario.healthy in
  let req := Scenario.request "u2" "1" (Some "Mine now") (Some Scenario.poster) in
  (films (run (put_films env req) Scenario.table Scenario.objects).2 = Scenario.table
   ∧ ∃ r, (run (put_films env req) Scenario.table Scenario.objects).1 = Normal r
          ∧ status r = 404%nat)
  ∧ (films (run (delete_films env req) Scenario.table Scenario.objects).2 = Scenario.table
     ∧ ∃ r, (run (delete_films env req) Scenario.table Scenario.objects).1 = Normal r
            ∧ status r = 404%nat).
Proof.
  assert (Hforeign : ∀ f, f ∈ Scenario.table → film_id f = "1" → user_id f ≠ "u2").
  { intros f Hf Hid.
    repeat (apply elem_of_cons in Hf as [->|Hf]); try discriminate.
    by apply elem_of_nil in Hf. }
  destruct (not_owned_is_not_found Scenario.healthy
              (Scenario.request "u2" "1" (Some "Mine now") (Some Scenario.poster))
              "u2" Scenario.table Scenario.objects eq_refl
              ltac:(discriminate) Hforeign) as [Hput Hdel].
  split.
  - destruct (Hput "Mine now" eq_refl ltac:(discriminate)) as (Hfilms & H404 & _).
    split; [exact Hfilms|]. apply H404.
    intros c Hc. vm_compute in Hc.
    repeat (apply elem_of_cons in Hc as [->|Hc]); try reflexivity.
    by apply elem_of_nil in Hc.
  - destruct Hdel as (Hfilms & H404 & _).
    split; [exact Hfilms|]. apply H404.
    intros c Hc. vm_compute in Hc.
    repeat (apply elem_of_cons in Hc as [->|Hc]); try reflexivity.
    by apply elem_of_nil in Hc.
Defined.

(** A caller who does not own film 1 and a caller asking for a film that
    is in no row get the same answers. *)
Example not_found_or_forbidden :
  let foreign := Scenario.request "u2" "1" (Some "Mine now") None in
  let missing := Scenario.request "u2" "9" (Some "Mine now") None in
  (run (put_films Scenario.healthy foreign) Scenario.table Scenario.objects).1
  = (run (put_films Scenario.healthy missing) Scenario.table Scenario.objects).1
  ∧ (run (delete_films Scenario.healthy foreign) Scenario.table Scenario.objects).1
    = (run (delete_films Scenario.healthy missing) Scenario.table Scenario.objects).1.
Proof. split; reflexivity. Qed.

(** C10. An update that carries an image and passes validation, for a
    target the caller does not own (or that does not exist): the handler
    removes no object, whatever the calls answer, so every object of the
    bucket is still there, and the table is as it was.  When no call fails
    the calls are the lookup, the upload and the update, in this order,
    the answer is 404, and the uploaded object stays in the bucket under
    its new key; a URL that no row held before is held by no row after,
    so no row refers to the new object. *)
Theorem put_films_orphan_upload (env : Env) (req : Request)
    (userId name : string) (image : File)
    (t : list Film) (b : gmap string StoredObject) :
  authorization req = Some userId → userId ≠ "" →
  body_name req = Some name → name ≠ "" →
  file req = Some image →
  (∀ f, f ∈ t → film_id f = params_id req → user_id f ≠ userId) →
  let id := params_id req in
  let fileName := Js.template (Date_now env) (originalname image) in
  let upload := Upload fileName (buffer image) (mimetype image) in
  let update := put_films_update env id userId name fileName in
  let result := run (put_films env req) t b in
  (∀ keys, Storage (Remove keys) ∉ calls result.2)
  ∧ (∀ k, is_Some (b !! k) → is_Some (bucket result.2 !! k))
  ∧ films result.2 = t
  ∧ (query_rejects env (SelectImageUrl id userId) = false →
     storage_settles env upload = StorageOk →
     query_rejects env update = false →
       result = (Normal not_found_update,
                 {| films := t;
                    bucket := <[fileName := {| object_body := buffer image;
                                               contentType := mimetype image |}]> b;
                    calls := [Sql (SelectImageUrl id userId); Storage upload;
                              Sql update] |})
       ∧ status not_found_update = 404%nat
       ∧ ((∀ f, f ∈ t → image_url f ≠ getPublicUrl env fileName) →
          ∀ f, f ∈ films result.2 → image_url f ≠ getPublicUrl env fileName)).
Proof.
  intros Hu Hu' Hn Hn' Hf Hnone%not_owned_filter. simpl.
  unfold put_films_update. unfold_handler.
  rewrite (proj2 (truthy_Some _ _) (conj Hu Hu')),
          (proj2 (truthy_Some _ _) (conj Hn Hn')), Hf. simpl.
  nothing_scoped. repeat step; nothing_scoped.
  all: split;
    [intros keys Hin; repeat (apply elem_of_cons in Hin as [?|Hin]);
     try discriminate; by apply elem_of_nil in Hin|].
  all: split;
    [intros k Hk;
     first [done
           |destruct (decide (Js.template (Date_now env) (originalname image) = k))
              as [<-|Hne];
            [by rewrite lookup_insert_eq|by rewrite lookup_insert_ne]]|].
  all: split; [done|].
  all: intros; try discriminate; by repeat split.
Qed.

Lemma put_films_orphan_upload_witness :
  let env := Scenario.healthy in
  let req := Scenario.request "u2" "1" (Some "Mine now") (Some Scenario.poster) in
  let upload := Upload "1700000000000-dune.png" [] "image/png" in
  let update := UpdateNameImage "Mine now"
                  (Scenario.publicUrl "1700000000000-dune.png") "1" "u2" in
  let result := run (put_films env req) Scenario.table Scenario.objects in
  (∀ keys, Storage (Remove keys) ∉ calls result.2)
  ∧ result = (Normal not_found_update,
              {| films := Scenario.table;
                 bucket := <["1700000000000-dune.png" := Scenario.png]> Scenario.objects;
                 calls := [Sql (SelectImageUrl "1" "u2"); Storage upload;
                           Sql update] |}).
Proof.
  assert (Hforeign : ∀ f, f ∈ Scenario.table → film_id f = "1" → user_id f ≠ "u2").
  { intros f Hf Hid.
    repeat (apply elem_of_cons in Hf as [->|Hf]); try discriminate.
    by apply elem_of_nil in Hf. }
  destruct (put_films_orphan_upload Scenario.healthy
              (Scenario.request "u2" "1" (Some "Mine now") (Some Scenario.poster))
              "u2" "Mine now" Scenario.poster Scenario.table Scenario.objects
              eq_refl ltac:(discriminate) eq_refl ltac:(discriminate) eq_refl
              Hforeign) as (Hrm & _ & _ & Hrun).
  split; [exact Hrm|].
  destruct (Hrun eq_refl eq_refl eq_refl) as [Hres _]. exact Hres.
Defined.

End Ownership.

Section DeleteFilm.

Import SqlSem.

Lemma unique_id (t : list Film) (f g : Film) :
  NoDup (film_id <$> t) → f ∈ t → g ∈ t → film_id f = film_id g → f = g.
Proof.
  induction t as [|h t IH]; [by intros _ ?%elem_of_nil|].
  rewrite fmap_cons, NoDup_cons.
  intros [Hh Ht] [->|Hf]%elem_of_cons [->|Hg]%elem_of_cons Hid; [done| | |by apply IH].
  - destruct Hh. rewrite Hid. by apply list_elem_of_fmap_2.
  - destruct Hh. rewrite <- Hid. by apply list_elem_of_fmap_2.
Qed.

Lemma select_image_url_cons id userId (t : list Film) url rest :
  select_image_url id userId t = url :: rest →
  ∃ f, f ∈ t ∧ scoped id userId f ∧ image_url f = url.
Proof.
  unfold select_image_url.
  destruct (filter (scoped id userId) t) as [|f l] eqn:E; [done|].
  intros [= <- _]. exists f.
  assert (Hf : f ∈ filter (scoped id userId) t) by (rewrite E; left).
  apply list_elem_of_filter in Hf as [? ?]. done.
Qed.

(** What the list query shows of the deleted film. *)
Lemma listed_after_delete id userId (t : list Film) (v : FilmView) :
  v ∈ select_films userId (delete_where id userId t) →
  view_id v = id → mine v = false.
Proof.
  unfold select_films, delete_where.
  intros (f & -> & Hf)%list_elem_of_fmap Hid. simpl in *.
  rewrite order_by_perm in Hf. apply list_elem_of_filter in Hf as [Hns _].
  apply bool_decide_eq_false. intros Hu. by apply Hns.
Qed.

Lemma listed_after_delete_unique id userId (t : list Film) (v : FilmView) url rest :
  NoDup (film_id <$> t) →
  select_image_url id userId t = url :: rest →
  v ∈ select_films userId (delete_where id userId t) →
  view_id v ≠ id.
Proof.
  unfold select_films, delete_where.
  intros Hnd (f0 & Hf0 & Hs0 & _)%select_image_url_cons
         (f & -> & Hf)%list_elem_of_fmap Hid. simpl in *.
  rewrite order_by_perm in Hf. apply list_elem_of_filter in Hf as [Hns Hf].
  assert (f = f0) as ->; [|done].
  apply (unique_id t); [done..|]. destruct Hs0 as [-> _]. done.
Qed.

(** The one path of the handler that answers 200. *)
Lemma delete_films_200 (env : Env) (req : Request) (userId : string)
    (t : list Film) (b : gmap string StoredObject)
    (r : Response) (s' : State) :
  Js.truthy (authorization req) = Some userId →
  run (delete_films env req) t b = (Normal r, s') →
  status r = 200%nat →
  ∃ imageUrl rest,
    select_image_url (params_id req) userId t = imageUrl :: rest
    ∧ calls s' = [Sql (SelectImageUrl (params_id req) userId);
                  Sql (DeleteFilm (params_id req) userId);
                  Storage (Remove [Path.basename imageUrl])]
    ∧ films s' = delete_where (params_id req) userId t
    ∧ (storage_settles env (Remove [Path.basename imageUrl]) = StorageOk →
         bucket s' = delete (Path.basename imageUrl) b).
Proof.
  intros Hauth Hrun H200. revert Hrun. unfold_handler. rewrite Hauth. simpl.
  destruct (query_rejects env (SelectImageUrl _ _)) eqn:Hsel; simpl;
    [intros [= <- <-]; discriminate H200|].
  destruct (select_image_url (params_id req) userId t) as [|url rest] eqn:Hrows;
    simpl; [intros [= <- <-]; discriminate H200|].
  destruct (query_rejects env (DeleteFilm _ _)) eqn:Hdel; simpl;
    [intros [= <- <-]; discriminate H200|].
  rewrite rowCount_select, Hrows. simpl.
  destruct (storage_settles env (Remove _)) eqn:Hrm; simpl;
    intros [= <- <-]; [| |discriminate H200]; simpl;
    exists url, rest; repeat split; try done; congruence.
Qed.

(** C9. A delete that answers 200 has made exactly three calls, in this
    order: the lookup of the image URL under the ownership filter, the
    deletion of the row under the same filter, and the removal of the
    object whose key is [path.basename] of that URL, which for a URL
    [dir/seg] is the final segment [seg].  The table is left without any
    row of the caller under that id.  In the state it leaves, a list by the
    same caller whose query is answered shows no film of the caller under
    that id (no entry with that id at all when ids are unique), and a
    second delete of the same id by the same caller whose lookup is
    answered gets 404. *)
Theorem delete_films_success (env : Env) (req : Request) (userId : string)
    (t : list Film) (b : gmap string StoredObject)
    (r : Response) (s' : State) :
  authorization req = Some userId → userId ≠ "" →
  run (delete_films env req) t b = (Normal r, s') →
  status r = 200%nat →
  let id := params_id req in
  ∃ imageUrl rest,
    select_image_url id userId t = imageUrl :: rest
    ∧ calls s' = [Sql (SelectImageUrl id userId); Sql (DeleteFilm id userId);
                  Storage (Remove [Path.basename imageUrl])]
    ∧ (∀ dir seg, imageUrl = dir +:+ String "/"%char seg →
         seg ≠ "" → slash_free seg = true → Path.basename imageUrl = seg)
    ∧ (storage_settles env (Remove [Path.basename imageUrl]) = StorageOk →
         bucket s' = delete (Path.basename imageUrl) b)
    ∧ films s' = delete_where id userId t
    ∧ (∀ env2, query_rejects env2 (SelectFilms userId) = false →
         ∃ rows,
           (run (get_films env2 req) (films s') (bucket s')).1
             = Normal {| status := 200; json := Rows rows |}
           ∧ (∀ v, v ∈ rows → view_id v = id → mine v = false)
           ∧ (NoDup (film_id <$> t) → ∀ v, v ∈ rows → view_id v ≠ id))
    ∧ (∀ env2, query_rejects env2 (SelectImageUrl id userId) = false →
         (run (delete_films env2 req) (films s') (bucket s')).1
           = Normal not_found_delete
         ∧ status not_found_delete = 404%nat).
Proof.
  intros Hu Hu' Hrun H200. simpl.
  pose proof (proj2 (truthy_Some _ _) (conj Hu Hu')) as Hauth.
  destruct (delete_films_200 env req userId t b r s' Hauth Hrun H200)
    as (url & rest & Hrows & Hcalls & Hfilms & Hbucket).
  exists url, rest. rewrite Hfilms.
  split; [done|]. split; [done|].
  split; [intros dir seg -> ? ?; by apply basename_segment|].
  split; [done|]. split; [done|]. split; intros env2 Hok.
  - eexists. unfold_handler. rewrite Hauth. simpl. rewrite Hok. simpl.
    split; [done|]. split.
    + intros v. apply listed_after_delete.
    + intros Hnd v Hv. by eapply listed_after_delete_unique.
  - unfold_handler. rewrite Hauth. simpl. rewrite Hok. simpl.
    by rewrite (select_image_url_none _ _ _ (delete_where_scoped _ _ _)).
Qed.

Lemma delete_films_success_witness :
  let env := Scenario.healthy in
  let req := Scenario.request "u1" "1" None None in
  let s' := (run (delete_films env req) Scenario.table Scenario.objects).2 in
  calls s' = [Sql (SelectImageUrl "1" "u1"); Sql (DeleteFilm "1" "u1");
              Storage (Remove ["100-matrix.png"])]
  ∧ films s' = [Scenario.alien; Scenario.heat]
  ∧ bucket s' = delete "100-matrix.png" Scenario.objects
  ∧ (run (delete_films env req) (films s') (bucket s')).1 = Normal not_found_delete.
Proof.
  destruct (delete_films_success Scenario.healthy
              (Scenario.request "u1" "1" None None) "u1"
              Scenario.table Scenario.objects
              {| status := 200; json := SuccessMessage "Film deleted successfully." |}
              (run (delete_films Scenario.healthy
                      (Scenario.request "u1" "1" None None))
                   Scenario.table Scenario.objects).2
              eq_refl ltac:(discriminate) eq_refl eq_refl)
    as (url & rest & Hrows & Hcalls & _ & Hbucket & Hfilms & _ & Hagain).
  injection Hrows as <- _.
  split; [exact Hcalls|]. split; [exact Hfilms|].
  split; [exact (Hbucket eq_refl)|].
  exact (proj1 (Hagain Scenario.healthy eq_refl)).
Defined.

End DeleteFilm.

Section Failures.

Import SqlSem.

(** C8, as the handlers have it.  In each of the four operations, a call
    that raises (a rejected query, a rejected storage promise, an upload
    whose result carries an error) ends the request with status 500 and
    the body [{error: "Internal Server Error"}].  The result of the
    [remove] call is never read: when the removal at the end of a delete
    reports an error in its result, the row is gone, the object stays and
    the answer is 200. *)
Theorem raised_failure_is_500 (env : Env) (req : Request)
    (t : list Film) (b : gmap string StoredObject) :
  internal_server_error
    = {| status := 500; json := ErrorBody "Internal Server Error" |}
  ∧ Forall (λ handler : Env → Request → M Response,
      let result := run (handler env req) t b in
      (∃ c, c ∈ calls result.2 ∧ raises env c = true) →
      result.1 = Normal internal_server_error)
      [get_films; post_films; put_films; delete_films]
  ∧ (∀ userId imageUrl rest,
       authorization req = Some userId → userId ≠ "" →
       select_image_url (params_id req) userId t = imageUrl :: rest →
       query_rejects env (SelectImageUrl (params_id req) userId) = false →
       query_rejects env (DeleteFilm (params_id req) userId) = false →
       storage_settles env (Remove [Path.basename imageUrl]) = StorageError →
       run (delete_films env req) t b
         = (Normal {| status := 200;
                      json := SuccessMessage "Film deleted successfully." |},
            {| films := delete_where (params_id req) userId t;
               bucket := b;
               calls := [Sql (SelectImageUrl (params_id req) userId);
                         Sql (DeleteFilm (params_id req) userId);
                         Storage (Remove [Path.basename imageUrl])] |})).
Proof.
  split; [done|]. split.
  - repeat constructor; simpl; unfold_handler; repeat step; try done.
    all: intros (c & Hc & Hr); exfalso; revert c Hc Hr; try no_call_raises.
    all: by intros c ?%elem_of_nil.
  - intros userId url rest Hu Hu' Hrows Hsel Hdel Hrm.
    unfold_handler.
    rewrite (proj2 (truthy_Some _ _) (conj Hu Hu')). simpl.
    rewrite Hsel. simpl. rewrite Hrows. simpl. rewrite Hdel. simpl.
    rewrite rowCount_select, Hrows. simpl. by rewrite Hrm.
Qed.

Lemma raised_failure_is_500_witness :
  let env := Scenario.remove_reports_error in
  let req := Scenario.request "u1" "1" None None in
  run (delete_films env req) Scenario.table Scenario.objects
    = (Normal {| status := 200;
                 json := SuccessMessage "Film deleted successfully." |},
       {| films := [Scenario.alien; Scenario.heat];
          bucket := Scenario.objects;
          calls := [Sql (SelectImageUrl "1" "u1"); Sql (DeleteFilm "1" "u1");
                    Storage (Remove ["100-matrix.png"])] |}).
Proof.
  destruct (raised_failure_is_500 Scenario.remove_reports_error
              (Scenario.request "u1" "1" None None)
              Scenario.table Scenario.objects) as (_ & _ & Hdel).
  exact (Hdel "u1" (Scenario.publicUrl "100-matrix.png") [] eq_refl
           ltac:(discriminate) eq_refl eq_refl eq_refl eq_refl).
Defined.

(** C8 as worded fails on its own example: the removal at the end of this
    delete fails, and the request ends with 200, not 500. *)
Lemma delete_films_remove_error_is_200 :
  let env := Scenario.remove_reports_error in
  let req := Scenario.request "u1" "1" None None in
  let removal := Storage (Remove ["100-matrix.png"]) in
  let result := run (delete_films env req) Scenario.table Scenario.objects in
  last (calls result.2) = Some removal
  ∧ fails env removal = true
  ∧ result.1 = Normal {| status := 200;
                         json := SuccessMessage "Film deleted successfully." |}
  ∧ result.1 ≠ Normal internal_server_error
  ∧ is_Some (bucket result.2 !! "100-matrix.png").
Proof.
  simpl. split; [reflexivity|]. split; [reflexivity|]. split; [reflexivity|].
  split; [discriminate|]. vm_compute. eauto.
Qed.

End Failures.


(** ** Further properties of the handlers *)

Section Answers.

Import SqlSem.

(** X1. Every handler catches what its calls throw and answers: the completion
    is never an exception, the status is one of the codes the handler
    writes, and the number of remote calls is bounded (one for the list, two
    for a create, four for an update, three for a delete). *)
Theorem handlers_always_answer (env : Env) (req : Request)
    (t : list Film) (b : gmap string StoredObject) :
  Forall (λ '(handler, allowed, most),
      ∃ r, (run (handler env req) t b).1 = Normal r
           ∧ status r ∈ (allowed : list nat)
           ∧ (length (calls (run (handler env req) t b).2) ≤ most)%nat)
    [(get_films, [200; 401; 500], 1); (post_films, [201; 400; 500], 2);
     (put_films, [200; 400; 401; 404; 500], 4);
     (delete_films, [200; 401; 404; 500], 3)]%nat.
Proof.
  repeat constructor; unfold_handler; repeat step;
    (eexists; split; [reflexivity|]; split; [simpl; set_solver|simpl; lia]).
Qed.

(** X2. The list handler reads only: whatever the header holds and whatever the
    query answers, the table and the bucket are the ones it started with. *)
Theorem get_films_read_only (env : Env) (req : Request)
    (t : list Film) (b : gmap string StoredObject) :
  films (run (get_films env req) t b).2 = t
  ∧ bucket (run (get_films env req) t b).2 = b.
Proof. unfold_handler. by repeat step. Qed.



End Answers.

Section CreateMore.

Import SqlSem.

(** X4. A create never touches what is there: the table afterwards is the old
    table, or the old table followed by one new row owned by the caller; an
    object under another key than the one uploaded is as it was. *)
Theorem post_films_keeps_rows (env : Env) (req : Request)
    (t : list Film) (b : gmap string StoredObject) :
  let s' := (run (post_films env req) t b).2 in
  (films s' = t
   ∨ ∃ row, films s' = (t ++ [row])%list ∧ authorization req = Some (user_id row))
  ∧ (∀ image k, file req = Some image →
       k ≠ Js.template (Date_now env) (originalname image) →
       bucket s' !! k = b !! k)
  ∧ (file req = None → bucket s' = b).
Proof.
  simpl. unfold_handler.
  destruct (Js.truthy (authorization req)) as [u|] eqn:Hu;
    [apply truthy_Some in Hu as [Hu _]|by repeat step; split; [left|]].
  repeat step.
  all: split; [first [by left | right; eexists; by split]|].
  all: split; [|by intros [=]].
  all: intros image k ? Hk; simplify_eq; simpl; by rewrite ?lookup_insert_ne.
Qed.

Lemma post_films_keeps_rows_witness :
  let req := Scenario.request "u1" "" (Some "Dune") (Some Scenario.poster) in
  let s' := (run (post_films Scenario.healthy req) Scenario.table Scenario.objects).2 in
  (films s' = Scenario.table
   ∨ ∃ row, films s' = (Scenario.table ++ [row])%list ∧ Some "u1" = Some (user_id row))
  ∧ bucket s' !! "100-matrix.png" = Scenario.objects !! "100-matrix.png".
Proof.
  destruct (post_films_keeps_rows Scenario.healthy
              (Scenario.request "u1" "" (Some "Dune") (Some Scenario.poster))
              Scenario.table Scenario.objects) as (Hrows & Hobj & _).
  split; [exact Hrows|].
  apply (Hobj Scenario.poster); [reflexivity|discriminate].
Defined.

(** X5. The gap a create leaves open: when the upload succeeds and the insert
    rejects, the answer is 500 and the table is as it was, but the uploaded
    object stays in the bucket under its key. *)
Theorem post_films_insert_failure (env : Env) (req : Request)
    (userId name : string) (image : File)
    (t : list Film) (b : gmap string StoredObject) :
  authorization req = Some userId → userId ≠ "" →
  body_name req = Some name → name ≠ "" →
  file req = Some image →
  let fileName := Js.template (Date_now env) (originalname image) in
  let upload := Upload fileName (buffer image) (mimetype image) in
  let insert := InsertFilm name (getPublicUrl env fileName) userId in
  storage_settles env upload = StorageOk →
  query_rejects env insert = true →
  run (post_films env req) t b
    = (Normal internal_server_error,
       {| films := t;
          bucket := <[fileName := {| object_body := buffer image;
                                     contentType := mimetype image |}]> b;
          calls := [Storage upload; Sql insert] |}).
Proof.
  intros Hu Hu' Hn Hn' Hf. simpl. intros Hup Hins. unfold_handler.
  rewrite (proj2 (truthy_Some _ _) (conj Hu Hu')),
          (proj2 (truthy_Some _ _) (conj Hn Hn')), Hf. simpl.
  rewrite Hup. simpl. by rewrite Hins.
Qed.

Lemma post_films_insert_failure_witness :
  let env := {| Date_now := 1700000000000; getPublicUrl := Scenario.publicUrl;
                query_rejects := λ _, true; storage_settles := λ _, StorageOk;
                generated_id := "4"; generated_created_at := 400 |} in
  let req := Scenario.request "u1" "" (Some "Dune") (Some Scenario.poster) in
  run (post_films env req) Scenario.table Scenario.objects
    = (Normal internal_server_error,
       {| films := Scenario.table;
          bucket := <["1700000000000-dune.png" := Scenario.png]> Scenario.objects;
          calls := [Storage (Upload "1700000000000-dune.png" [] "image/png");
                    Sql (InsertFilm "Dune"
                           (Scenario.publicUrl "1700000000000-dune.png") "u1")] |}).
Proof.
  apply (post_films_insert_failure
           {| Date_now := 1700000000000; getPublicUrl := Scenario.publicUrl;
              query_rejects := λ _, true; storage_settles := λ _, StorageOk;
              generated_id := "4"; generated_created_at := 400 |}
           (Scenario.request "u1" "" (Some "Dune") (Some Scenario.poster))
           "u1" "Dune" Scenario.poster);
    [reflexivity | discriminate | reflexivity | discriminate | reflexivity
    | reflexivity | reflexivity].
Defined.

(** X6. After a create answered 201, the new film is in the list of every
    caller whose query is answered, under the generated id, with the
    supplied name and the public URL of the upload: with [mine] true for
    its creator and false for any other caller. *)
Theorem post_then_get_films (env env2 : Env) (req req2 : Request)
    (r : Response) (s' : State) (userId name caller : string) (image : File)
    (t : list Film) (b : gmap string StoredObject) :
  authorization req = Some userId →
  body_name req = Some name →
  file req = Some image →
  run (post_films env req) t b = (Normal r, s') →
  status r = 201%nat →
  authorization req2 = Some caller → caller ≠ "" →
  query_rejects env2 (SelectFilms caller) = false →
  ∃ rows,
    (run (get_films env2 req2) (films s') (bucket s')).1
      = Normal {| status := 200; json := Rows rows |}
    ∧ {| view_id := generated_id env;
         view_name := name;
         imageUrl := getPublicUrl env (Js.template (Date_now env) (originalname image));
         mine := bool_decide (userId = caller) |} ∈ rows.
Proof.
  intros Hu Hn Hf Hrun H201 Hc Hc' Hq.
  assert (Hfilms : films s' = (t ++ [insert_film env name
            (getPublicUrl env (Js.template (Date_now env) (originalname image)))
            userId])%list).
  { revert Hrun. unfold_handler.
    destruct (Js.truthy (authorization req)) as [u|] eqn:Hau;
      [|intros [= <- <-]; discriminate H201].
    destruct (Js.truthy (body_name req)) as [n|] eqn:Hna;
      [|intros [= <- <-]; discriminate H201].
    apply truthy_Some in Hau as [Hau _]. apply truthy_Some in Hna as [Hna _].
    rewrite Hf. simpl. simplify_eq.
    repeat step; intros [= <- <-]; try discriminate H201. done. }
  exists (select_films caller (films s')). split.
  - unfold_handler. rewrite (proj2 (truthy_Some _ _) (conj Hc Hc')). simpl.
    by rewrite Hq.
  - unfold select_films. rewrite Hfilms.
    eapply list_elem_of_fmap_2'.
    + rewrite order_by_perm. apply elem_of_app. right. left.
    + reflexivity.
Qed.

Lemma post_then_get_films_witness :
  let req := Scenario.request "u1" "" (Some "Dune") (Some Scenario.poster) in
  let s' := (run (post_films Scenario.healthy req) Scenario.table Scenario.objects).2 in
  ∃ rows,
    (run (get_films Scenario.healthy (Scenario.request "u2" "" None None))
       (films s') (bucket s')).1
      = Normal {| status := 200; json := Rows rows |}
    ∧ {| view_id := "4"; view_name := "Dune";
         imageUrl := Scenario.publicUrl "1700000000000-dune.png";
         mine := false |} ∈ rows.
Proof.
  apply (post_then_get_films Scenario.healthy Scenario.healthy
           (Scenario.request "u1" "" (Some "Dune") (Some Scenario.poster))
           (Scenario.request "u2" "" None None)
           {| status := 201;
              json := SuccessData "Film added successfully."
                        (Some (mkFilm "4" "Dune"
                                 (Scenario.publicUrl "1700000000000-dune.png")
                                 "u1" 400)) |}
           _ "u1" "Dune" "u2" Scenario.poster Scenario.table Scenario.objects);
    [reflexivity | reflexivity | reflexivity | reflexivity | reflexivity
    | reflexivity | discriminate | reflexivity].
Defined.

End CreateMore.

Section UpdateMore.

Import SqlSem.

(** X7. An update with a caller identifier but without a name (absent or
    empty) is answered 400 before any call, whether or not it carries an
    image. *)
Theorem put_films_missing_name (env : Env) (req : Request) (userId : string)
    (t : list Film) (b : gmap string StoredObject) :
  authorization req = Some userId → userId ≠ "" →
  body_name req = None ∨ body_name req = Some "" →
  run (put_films env req) t b
    = (Normal {| status := 400; json := ErrorBody "New name is required." |},
       {| films := t; bucket := b; calls := [] |}).
Proof.
  intros Hu Hu' Hn%truthy_None. unfold_handler.
  by rewrite (proj2 (truthy_Some _ _) (conj Hu Hu')), Hn.
Qed.

Lemma put_films_missing_name_witness :
  run (put_films Scenario.healthy
         (Scenario.request "u1" "1" None (Some Scenario.poster)))
      Scenario.table Scenario.objects
    = (Normal {| status := 400; json := ErrorBody "New name is required." |},
       {| films := Scenario.table; bucket := Scenario.objects; calls := [] |}).
Proof.
  apply (put_films_missing_name Scenario.healthy
           (Scenario.request "u1" "1" None (Some Scenario.poster)) "u1");
    [reflexivity | discriminate | left; reflexivity].
Defined.

(** X8. An update without image makes one call, the scoped [UPDATE] of the
    name.  When it is answered, every row of the caller under the id gets
    the new name and nothing else changes; the answer is 200 with the first
    such row, renamed, as data when there is one, and 404 when there is
    none. *)
Theorem put_films_rename_outcome (env : Env) (req : Request)
    (userId name : string) (t : list Film) (b : gmap string StoredObject) :
  authorization req = Some userId → userId ≠ "" →
  body_name req = Some name → name ≠ "" →
  file req = None →
  query_rejects env (UpdateName name (params_id req) userId) = false →
  let id := params_id req in
  let result := run (put_films env req) t b in
  result.2 = {| films := update_where id userId (set_name name) t;
                bucket := b;
                calls := [Sql (UpdateName name id userId)] |}
  ∧ result.1
    = Normal match filter (scoped id userId) t with
             | f :: _ =>
                 {| status := 200;
                    json := SuccessData "Film updated successfully."
                              (Some (set_name name f)) |}
             | [] => not_found_update
             end.
Proof.
  intros Hu Hu' Hn Hn' Hf Hq. simpl. unfold_handler.
  rewrite (proj2 (truthy_Some _ _) (conj Hu Hu')),
          (proj2 (truthy_Some _ _) (conj Hn Hn')), Hf. simpl.
  rewrite Hq. simpl. unfold returning.
  by destruct (filter (scoped (params_id req) userId) t).
Qed.

Lemma put_films_rename_outcome_witness :
  let req := Scenario.request "u1" "3" (Some "Heat 2") None in
  let result := run (put_films Scenario.healthy req) Scenario.table Scenario.objects in
  result.2 = {| films := [Scenario.matrix; Scenario.alien;
                          set_name "Heat 2" Scenario.heat];
                bucket := Scenario.objects;
                calls := [Sql (UpdateName "Heat 2" "3" "u1")] |}
  ∧ result.1
    = Normal {| status := 200;
                json := SuccessData "Film updated successfully."
                          (Some (set_name "Heat 2" Scenario.heat)) |}.
Proof.
  apply (put_films_rename_outcome Scenario.healthy
           (Scenario.request "u1" "3" (Some "Heat 2") None) "u1" "Heat 2");
    [reflexivity | discriminate | reflexivity | discriminate
    | reflexivity | reflexivity].
Defined.

(** X9. An update with image by the owner, all of whose calls succeed and whose
    new public URL is not empty: the old object is removed from the bucket
    under the last piece of the old URL, the new one is stored under the
    new key, every row of the caller under the id gets the new name and the
    new URL, and the answer is 200 with the first such row as data. *)
Theorem put_films_replace_image (env : Env) (req : Request)
    (userId name url : string) (image : File) (old : Film) (others : list Film)
    (t : list Film) (b : gmap string StoredObject) :
  authorization req = Some userId → userId ≠ "" →
  body_name req = Some name → name ≠ "" →
  file req = Some image →
  let id := params_id req in
  let fileName := Js.template (Date_now env) (originalname image) in
  let oldFileName := Js.pop (Js.split "/" (image_url old)) in
  let upload := Upload fileName (buffer image) (mimetype image) in
  filter (scoped id userId) t = old :: others →
  getPublicUrl env fileName = url → url ≠ "" →
  query_rejects env (SelectImageUrl id userId) = false →
  storage_settles env (Remove [oldFileName]) = StorageOk →
  storage_settles env upload = StorageOk →
  query_rejects env (UpdateNameImage name url id userId) = false →
  run (put_films env req) t b
    = (Normal {| status := 200;
                 json := SuccessData "Film updated successfully."
                           (Some (set_name_image name url old)) |},
       {| films := update_where id userId (set_name_image name url) t;
          bucket := <[fileName := {| object_body := buffer image;
                                     contentType := mimetype image |}]>
                      (delete oldFileName b);
          calls := [Sql (SelectImageUrl id userId);
                    Storage (Remove [oldFileName]);
                    Storage upload;
                    Sql (UpdateNameImage name url id userId)] |}).
Proof.
  intros Hu Hu' Hn Hn' Hf. simpl. intros Hold Hurl Hurl' Hsel Hrm Hup Hupd.
  unfold_handler.
  rewrite (proj2 (truthy_Some _ _) (conj Hu Hu')),
          (proj2 (truthy_Some _ _) (conj Hn Hn')), Hf. simpl.
  rewrite Hsel. simpl. unfold select_image_url. rewrite Hold. simpl.
  rewrite Hrm. simpl. rewrite Hup. simpl.
  rewrite Hurl, (proj2 (truthy_Some (Some url) url) (conj eq_refl Hurl')). simpl.
  rewrite Hupd. simpl. unfold returning. by rewrite Hold.
Qed.

Lemma put_films_replace_image_witness :
  let req := Scenario.request "u1" "1" (Some "Matrix Reloaded") (Some Scenario.poster) in
  let url := Scenario.publicUrl "1700000000000-dune.png" in
  run (put_films Scenario.healthy req) Scenario.table Scenario.objects
    = (Normal {| status := 200;
                 json := SuccessData "Film updated successfully."
                           (Some (mkFilm "1" "Matrix Reloaded" url "u1" 100)) |},
       {| films := [mkFilm "1" "Matrix Reloaded" url "u1" 100;
                    Scenario.alien; Scenario.heat];
          bucket := <["1700000000000-dune.png" := Scenario.png]>
                      (delete "100-matrix.png" Scenario.objects);
          calls := [Sql (SelectImageUrl "1" "u1");
                    Storage (Remove ["100-matrix.png"]);
                    Storage (Upload "1700000000000-dune.png" [] "image/png");
                    Sql (UpdateNameImage "Matrix Reloaded" url "1" "u1")] |}).
Proof.
  apply (put_films_replace_image Scenario.healthy
           (Scenario.request "u1" "1" (Some "Matrix Reloaded") (Some Scenario.poster))
           "u1" "Matrix Reloaded" (Scenario.publicUrl "1700000000000-dune.png")
           Scenario.poster Scenario.matrix [] Scenario.table Scenario.objects);
    [reflexivity | discriminate | reflexivity | discriminate | reflexivity
    | reflexivity | reflexivity | discriminate | reflexivity | reflexivity
    | reflexivity | reflexivity].
Defined.

(** X10. The gap an update leaves open: when the old object has been removed
    and the upload then fails, the answer is 500 and the table is as it
    was, so the row still holds the old URL, but the object under the old
    key is gone from the bucket. *)
Theorem put_films_upload_failure_after_removal (env : Env) (req : Request)
    (userId name : string) (image : File) (old : Film) (others : list Film)
    (t : list Film) (b : gmap string StoredObject) :
  authorization req = Some userId → userId ≠ "" →
  body_name req = Some name → name ≠ "" →
  file req = Some image →
  let id := params_id req in
  let fileName := Js.template (Date_now env) (originalname image) in
  let oldFileName := Js.pop (Js.split "/" (image_url old)) in
  let upload := Upload fileName (buffer image) (mimetype image) in
  filter (scoped id userId) t = old :: others →
  query_rejects env (SelectImageUrl id userId) = false →
  storage_settles env (Remove [oldFileName]) = StorageOk →
  storage_settles env upload ≠ StorageOk →
  let result := run (put_films env req) t b in
  result = (Normal internal_server_error,
            {| films := t;
               bucket := delete oldFileName b;
               calls := [Sql (SelectImageUrl id userId);
                         Storage (Remove [oldFileName]); Storage upload] |})
  ∧ old ∈ films result.2
  ∧ bucket result.2 !! oldFileName = None.
Proof.
  intros Hu Hu' Hn Hn' Hf. simpl. intros Hold Hsel Hrm Hup.
  assert (Hin : old ∈ t).
  { assert (H : old ∈ filter (scoped (params_id req) userId) t)
      by (rewrite Hold; left).
    by apply list_elem_of_filter in H as [_ H]. }
  unfold_handler.
  rewrite (proj2 (truthy_Some _ _) (conj Hu Hu')),
          (proj2 (truthy_Some _ _) (conj Hn Hn')), Hf. simpl.
  rewrite Hsel. simpl. unfold select_image_url. rewrite Hold. simpl.
  rewrite Hrm. simpl.
  destruct (storage_settles env (Upload _ _ _)); [done| |]; simpl;
    (split; [done|split; [done|apply lookup_delete_eq]]).
Qed.

Lemma put_films_upload_failure_after_removal_witness :
  let req := Scenario.request "u1" "1" (Some "Matrix Reloaded") (Some Scenario.poster) in
  let result := run (put_films Scenario.upload_reports_error req)
                  Scenario.table Scenario.objects in
  result = (Normal internal_server_error,
            {| films := Scenario.table;
               bucket := delete "100-matrix.png" Scenario.objects;
               calls := [Sql (SelectImageUrl "1" "u1");
                         Storage (Remove ["100-matrix.png"]);
                         Storage (Upload "1700000000000-dune.png" [] "image/png")] |})
  ∧ Scenario.matrix ∈ films result.2
  ∧ bucket result.2 !! "100-matrix.png" = None.
Proof.
  apply (put_films_upload_failure_after_removal Scenario.upload_reports_error
           (Scenario.request "u1" "1" (Some "Matrix Reloaded") (Some Scenario.poster))
           "u1" "Matrix Reloaded" Scenario.poster Scenario.matrix []
           Scenario.table Scenario.objects);
    [reflexivity | discriminate | reflexivity | discriminate | reflexivity
    | reflexivity | reflexivity | reflexivity | discriminate].
Defined.

(** X11. An update rewrites only rows of the caller under the requested id:
    every other row of the table, at its place, is the row it was. *)
Theorem put_films_other_rows (env : Env) (req : Request)
    (t : list Film) (b : gmap string StoredObject) :
  Forall2 (λ f f',
      f' = f ∨ (film_id f = params_id req ∧ authorization req = Some (user_id f)))
    t (films (run (put_films env req) t b).2).
Proof.
  assert (Hid : Forall2 (λ f f' : Film,
            f' = f ∨ (film_id f = params_id req
                      ∧ authorization req = Some (user_id f))) t t).
  { apply Forall_Forall2_diag, Forall_forall. by left. }
  assert (Hup : ∀ u set, authorization req = Some u →
            Forall2 (λ f f' : Film,
              f' = f ∨ (film_id f = params_id req
                        ∧ authorization req = Some (user_id f)))
              t (update_where (params_id req) u set t)).
  { intros u set Hu. unfold update_where. apply Forall2_fmap_r.
    apply Forall_Forall2_diag, Forall_forall. intros f _. unfold compose. cbv beta.
    case_decide as Hs; [|by left]. destruct Hs as [? ->]. by right. }
  unfold_handler.
  destruct (Js.truthy (authorization req)) as [u|] eqn:Hu; [|done].
  apply truthy_Some in Hu as [Hu _].
  repeat step; first [exact Hid | by apply Hup].
Qed.

(** X12. The edge of [if (newPublicUrl)]: when the storage client resolves the
    key of a successful upload to an empty URL, the update takes the branch
    without image.  The old object is removed and the new one stored, but
    the rows keep the old URL and only the name changes. *)
Theorem put_films_empty_public_url (env : Env) (req : Request)
    (userId name : string) (image : File) (old : Film) (others : list Film)
    (t : list Film) (b : gmap string StoredObject) :
  authorization req = Some userId → userId ≠ "" →
  body_name req = Some name → name ≠ "" →
  file req = Some image →
  let id := params_id req in
  let fileName := Js.template (Date_now env) (originalname image) in
  let oldFileName := Js.pop (Js.split "/" (image_url old)) in
  let upload := Upload fileName (buffer image) (mimetype image) in
  filter (scoped id userId) t = old :: others →
  getPublicUrl env fileName = "" →
  query_rejects env (SelectImageUrl id userId) = false →
  storage_settles env (Remove [oldFileName]) = StorageOk →
  storage_settles env upload = StorageOk →
  query_rejects env (UpdateName name id userId) = false →
  run (put_films env req) t b
    = (Normal {| status := 200;
                 json := SuccessData "Film updated successfully."
                           (Some (set_name name old)) |},
       {| films := update_where id userId (set_name name) t;
          bucket := <[fileName := {| object_body := buffer image;
                                     contentType := mimetype image |}]>
                      (delete oldFileName b);
          calls := [Sql (SelectImageUrl id userId);
                    Storage (Remove [oldFileName]);
                    Storage upload;
                    Sql (UpdateName name id userId)] |}).
Proof.
  intros Hu Hu' Hn Hn' Hf. simpl. intros Hold Hurl Hsel Hrm Hup Hupd.
  unfold_handler.
  rewrite (proj2 (truthy_Some _ _) (conj Hu Hu')),
          (proj2 (truthy_Some _ _) (conj Hn Hn')), Hf. simpl.
  rewrite Hsel. simpl. unfold select_image_url. rewrite Hold. simpl.
  rewrite Hrm. simpl. rewrite Hup. simpl.
  rewrite Hurl. unfold Js.truthy at 1. simpl.
  rewrite Hupd. simpl. unfold returning. by rewrite Hold.
Qed.

Lemma put_films_empty_public_url_witness :
  let env := {| Date_now := 1700000000000; getPublicUrl := λ _, "";
                query_rejects := λ _, false; storage_settles := λ _, StorageOk;
                generated_id := "4"; generated_created_at := 400 |} in
  let req := Scenario.request "u1" "1" (Some "Matrix Reloaded") (Some Scenario.poster) in
  run (put_films env req) Scenario.table Scenario.objects
    = (Normal {| status := 200;
                 json := SuccessData "Film updated successfully."
                           (Some (set_name "Matrix Reloaded" Scenario.matrix)) |},
       {| films := [set_name "Matrix Reloaded" Scenario.matrix;
                    Scenario.alien; Scenario.heat];
          bucket := <["1700000000000-dune.png" := Scenario.png]>
                      (delete "100-matrix.png" Scenario.objects);
          calls := [Sql (SelectImageUrl "1" "u1");
                    Storage (Remove ["100-matrix.png"]);
                    Storage (Upload "1700000000000-dune.png" [] "image/png");
                    Sql (UpdateName "Matrix Reloaded" "1" "u1")] |}).
Proof.
  apply (put_films_empty_public_url
           {| Date_now := 1700000000000; getPublicUrl := λ _, "";
              query_rejects := λ _, false; storage_settles := λ _, StorageOk;
              generated_id := "4"; generated_created_at := 400 |}
           (Scenario.request "u1" "1" (Some "Matrix Reloaded") (Some Scenario.poster))
           "u1" "Matrix Reloaded" Scenario.poster Scenario.matrix []
           Scenario.table Scenario.objects);
    [reflexivity | discriminate | reflexivity | discriminate | reflexivity
    | reflexivity | reflexivity | reflexivity | reflexivity | reflexivity
    | reflexivity].
Defined.

End UpdateMore.

Section DeleteMore.

Import SqlSem.

(** X13. The gap a delete leaves open: when the row has been deleted and the
    removal of the object then rejects, the answer is 500 although the row
    is gone for good; the object stays in the bucket. *)
Theorem delete_films_remove_rejected (env : Env) (req : Request)
    (userId : string) (old : Film) (others : list Film)
    (t : list Film) (b : gmap string StoredObject) :
  authorization req = Some userId → userId ≠ "" →
  let id := params_id req in
  let fileName := Path.basename (image_url old) in
  filter (scoped id userId) t = old :: others →
  query_rejects env (SelectImageUrl id userId) = false →
  query_rejects env (DeleteFilm id userId) = false →
  storage_settles env (Remove [fileName]) = StorageRejected →
  let result := run (delete_films env req) t b in
  result = (Normal internal_server_error,
            {| films := delete_where id userId t;
               bucket := b;
               calls := [Sql (SelectImageUrl id userId); Sql (DeleteFilm id userId);
                         Storage (Remove [fileName])] |})
  ∧ old ∉ films result.2.
Proof.
  intros Hu Hu'. simpl. intros Hold Hsel Hdel Hrm.
  assert (Hrows : select_image_url (params_id req) userId t
                  = image_url old :: (image_url <$> others))
    by (unfold select_image_url; by rewrite Hold).
  assert (Hres : run (delete_films env req) t b
            = (Normal internal_server_error,
               {| films := delete_where (params_id req) userId t;
                  bucket := b;
                  calls := [Sql (SelectImageUrl (params_id req) userId);
                            Sql (DeleteFilm (params_id req) userId);
                            Storage (Remove [Path.basename (image_url old)])] |})).
  { unfold_handler. rewrite (proj2 (truthy_Some _ _) (conj Hu Hu')). simpl.
    rewrite Hsel. simpl. rewrite Hrows. simpl. rewrite Hdel. simpl.
    rewrite rowCount_select, Hrows. simpl. by rewrite Hrm. }
  rewrite Hres. split; [done|]. simpl.
  unfold delete_where. intros [Hns _]%list_elem_of_filter.
  apply Hns.
  assert (H : old ∈ filter (scoped (params_id req) userId) t)
    by (rewrite Hold; left).
  by apply list_elem_of_filter in H as [H _].
Qed.

Lemma delete_films_remove_rejected_witness :
  let env := {| Date_now := 0; getPublicUrl := Scenario.publicUrl;
                query_rejects := λ _, false;
                storage_settles := λ _, StorageRejected;
                generated_id := "4"; generated_created_at := 400 |} in
  let result := run (delete_films env (Scenario.request "u1" "1" None None))
                  Scenario.table Scenario.objects in
  result = (Normal internal_server_error,
            {| films := [Scenario.alien; Scenario.heat];
               bucket := Scenario.objects;
               calls := [Sql (SelectImageUrl "1" "u1"); Sql (DeleteFilm "1" "u1");
                         Storage (Remove ["100-matrix.png"])] |})
  ∧ Scenario.matrix ∉ films result.2.
Proof.
  apply (delete_films_remove_rejected
           {| Date_now := 0; getPublicUrl := Scenario.publicUrl;
              query_rejects := λ _, false;
              storage_settles := λ _, StorageRejected;
              generated_id := "4"; generated_created_at := 400 |}
           (Scenario.request "u1" "1" None None) "u1" Scenario.matrix []
           Scenario.table Scenario.objects);
    [reflexivity | discriminate | reflexivity | reflexivity | reflexivity
    | reflexivity].
Defined.

(** X14. A delete takes away nothing but what it was asked for: the table
    afterwards is the old one with some rows left out, every row that is not
    a row of the caller under the requested id is still there, and an object
    stays under its key unless that key is the [path.basename] of the URL of
    such a row. *)
Theorem delete_films_keeps_others (env : Env) (req : Request)
    (t : list Film) (b : gmap string StoredObject) :
  let s' := (run (delete_films env req) t b).2 in
  films s' `sublist_of` t
  ∧ (∀ f, f ∈ t →
       ¬ (film_id f = params_id req ∧ authorization req = Some (user_id f)) →
       f ∈ films s')
  ∧ (∀ k,
       (∀ f, f ∈ t → film_id f = params_id req →
             authorization req = Some (user_id f) →
             Path.basename (image_url f) ≠ k) →
       bucket s' !! k = b !! k).
Proof.
  simpl. unfold_handler.
  destruct (Js.truthy (authorization req)) as [u|] eqn:Hu; [|done].
  apply truthy_Some in Hu as [Hu _].
  assert (Hkept : ∀ f, f ∈ t →
            ¬ (film_id f = params_id req ∧ authorization req = Some (user_id f)) →
            f ∈ delete_where (params_id req) u t).
  { intros f Hf Hn. apply list_elem_of_filter. split; [|done].
    intros [Hid <-]. by apply Hn. }
  assert (Hsub : delete_where (params_id req) u t `sublist_of` t)
    by apply sublist_filter.
  simpl.
  destruct (query_rejects env (SelectImageUrl _ _)); simpl; [done|].
  destruct (select_image_url (params_id req) u t) as [|url rest] eqn:Hrows;
    simpl; [done|].
  apply select_image_url_cons in Hrows as (f0 & Hf0 & [Hid0 Hu0] & Hurl0).
  destruct (query_rejects env (DeleteFilm _ _)); simpl; [done|].
  destruct (rowCount (params_id req) u t); simpl; [done|].
  destruct (storage_settles env (Remove _)); simpl; try done.
  split; [done|]. split; [done|].
  intros k Hk. apply lookup_delete_ne. rewrite <- Hurl0.
  apply Hk; [done..|]. by rewrite Hu0.
Qed.

Lemma delete_films_keeps_others_witness :
  let s' := (run (delete_films Scenario.healthy (Scenario.request "u1" "1" None None))
               Scenario.table Scenario.objects).2 in
  Scenario.alien ∈ films s' ∧ Scenario.heat ∈ films s'.
Proof.
  destruct (delete_films_keeps_others Scenario.healthy
              (Scenario.request "u1" "1" None None)
              Scenario.table Scenario.objects) as (_ & Hkept & _).
  split; apply Hkept.
  - vm_compute. apply list_elem_of_further, list_elem_of_here.
  - intros [_ [=]].
  - vm_compute. do 2 apply list_elem_of_further. apply list_elem_of_here.
  - intros [[=] _].
Defined.

End DeleteMore.

Section AcrossHandlers.

Import SqlSem.

Lemma filter_owner_update_where (owner id userId : string) (set : Film → Film)
    (t : list Film) :
  owner ≠ userId → (∀ f, user_id (set f) = user_id f) →
  filter (λ f, user_id f = owner) (update_where id userId set t)
  = filter (λ f, user_id f = owner) t.
Proof.
  intros Hne Hset. unfold update_where.
  induction t as [|f t IH]; [done|].
  rewrite fmap_cons, !filter_cons, IH.
  destruct (decide (scoped id userId f)) as [[_ Hu]|_]; [|done].
  rewrite Hset. by rewrite !decide_False by congruence.
Qed.

Lemma filter_owner_delete_where (owner id userId : string) (t : list Film) :
  owner ≠ userId →
  filter (λ f, user_id f = owner) (delete_where id userId t)
  = filter (λ f, user_id f = owner) t.
Proof.
  intros Hne. unfold delete_where.
  induction t as [|f t IH]; [done|].
  rewrite !filter_cons.
  destruct (decide (¬ scoped id userId f)) as [_|Hs].
  - by rewrite filter_cons, IH.
  - rewrite IH. rewrite decide_False; [done|].
    intros Ho. apply Hs. intros [_ Hu]. congruence.
Qed.

(** X15. No request changes the films of somebody else: for an owner other than
    the one named in the authorization header, the owner's rows after any of
    the four handlers, whatever the calls answer, are the rows before, in
    the same order. *)
Theorem other_owners_rows_kept (env : Env) (req : Request)
    (t : list Film) (b : gmap string StoredObject) :
  Forall (λ handler : Env → Request → M Response,
      ∀ owner, authorization req ≠ Some owner →
        filter (λ f, user_id f = owner) (films (run (handler env req) t b).2)
        = filter (λ f, user_id f = owner) t)
    [get_films; post_films; put_films; delete_films].
Proof.
  repeat constructor; intros owner Howner; unfold_handler.
  all: destruct (Js.truthy (authorization req)) as [u|] eqn:Hu; [|by repeat step].
  all: apply truthy_Some in Hu as [Hu _].
  all: assert (owner ≠ u) by congruence.
  all: repeat step; try done.
  all: try (by apply filter_owner_update_where).
  all: try (by apply filter_owner_delete_where).
  rewrite filter_app, filter_cons, decide_False by (simpl; congruence).
  by rewrite app_nil_r.
Qed.

Lemma other_owners_rows_kept_witness :
  Forall (λ handler : Env → Request → M Response,
      filter (λ f, user_id f = "u2")
        (films (run (handler Scenario.healthy
                       (Scenario.request "u1" "2" (Some "Mine now")
                          (Some Scenario.poster)))
                  Scenario.table Scenario.objects).2)
      = [Scenario.alien])
    [get_films; post_films; put_films; delete_films].
Proof.
  eapply Forall_impl;
    [apply (other_owners_rows_kept Scenario.healthy
              (Scenario.request "u1" "2" (Some "Mine now") (Some Scenario.poster))
              Scenario.table Scenario.objects)|].
  intros handler H. simpl in H. rewrite (H "u2"); [reflexivity|discriminate].
Defined.

Lemma template_nonempty (n : Z) (s : string) : Js.template n s ≠ "".
Proof. unfold Js.template. by destruct (pretty n). Qed.

Lemma basename_trailing_slash (p : string) :
  Path.basename (p +:+ "/") = Path.basename p.
Proof.
  unfold Path.basename. rewrite list_ascii_of_string_app. simpl.
  by rewrite rev_app_distr.
Qed.

(** X16. The two ways the handlers turn a stored URL into a storage key: on a
    URL [dir/seg] whose last segment is not empty, [split('/').pop()] of the
    update and [path.basename] of the delete both give [seg]; on the same
    URL followed by a slash they part, the first gives the empty string and
    the second still [seg]. *)
Theorem storage_key_of_url (dir seg : string) :
  seg ≠ "" → slash_free seg = true →
  Js.pop (Js.split "/" (dir +:+ String "/"%char seg)) = seg
  ∧ Path.basename (dir +:+ String "/"%char seg) = seg
  ∧ Js.pop (Js.split "/" ((dir +:+ String "/"%char seg) +:+ "/")) = ""
  ∧ Path.basename ((dir +:+ String "/"%char seg) +:+ "/") = seg.
Proof.
  intros Hne Hfree. split; [by apply pop_split_segment|].
  split; [by apply basename_segment|]. split.
  - by apply (pop_split_segment "/" _ "").
  - rewrite basename_trailing_slash. by apply basename_segment.
Qed.

Lemma storage_key_of_url_witness :
  Js.pop (Js.split "/" (Scenario.publicUrl "100-matrix.png")) = "100-matrix.png"
  ∧ Path.basename (Scenario.publicUrl "100-matrix.png") = "100-matrix.png"
  ∧ Js.pop (Js.split "/" (Scenario.publicUrl "100-matrix.png" +:+ "/")) = ""
  ∧ Path.basename (Scenario.publicUrl "100-matrix.png" +:+ "/") = "100-matrix.png".
Proof.
  apply (storage_key_of_url "https://cdn.test/film-images" "100-matrix.png");
    [discriminate | reflexivity].
Defined.

(** X17. Create and delete undo each other.  When public URLs have the form
    [base/key], the key of the upload holds no slash and is free in the
    bucket, and the caller has no row under the id the table generates, a
    create answered 201 followed by a delete of that id by the same caller,
    all of whose calls succeed, is answered 200 and leaves the table and the
    bucket as they were before the create: the delete finds the key of the
    upload again in the URL of the row. *)
Theorem post_then_delete_films (env env2 : Env) (req req2 : Request)
    (userId name base : string) (image : File)
    (t : list Film) (b : gmap string StoredObject) :
  authorization req = Some userId → userId ≠ "" →
  body_name req = Some name → name ≠ "" →
  file req = Some image →
  authorization req2 = Some userId → params_id req2 = generated_id env →
  let fileName := Js.template (Date_now env) (originalname image) in
  (∀ k, getPublicUrl env k = base +:+ String "/"%char k) →
  slash_free fileName = true →
  b !! fileName = None →
  (∀ f, f ∈ t → film_id f = generated_id env → user_id f ≠ userId) →
  storage_settles env (Upload fileName (buffer image) (mimetype image)) = StorageOk →
  query_rejects env (InsertFilm name (getPublicUrl env fileName) userId) = false →
  query_rejects env2 (SelectImageUrl (generated_id env) userId) = false →
  query_rejects env2 (DeleteFilm (generated_id env) userId) = false →
  storage_settles env2 (Remove [fileName]) = StorageOk →
  let created := run (post_films env req) t b in
  ∃ r, created.1 = Normal r ∧ status r = 201%nat
  ∧ run (delete_films env2 req2) (films created.2) (bucket created.2)
    = (Normal {| status := 200;
                 json := SuccessMessage "Film deleted successfully." |},
       {| films := t; bucket := b;
          calls := [Sql (SelectImageUrl (generated_id env) userId);
                    Sql (DeleteFilm (generated_id env) userId);
                    Storage (Remove [fileName])] |}).
Proof.
  intros Hu Hu' Hn Hn' Hf Hu2 Hid. simpl.
  intros Hurl Hfree Hfresh Hnone%not_owned_filter Hup Hins Hsel Hdel Hrm.
  pose proof (proj2 (truthy_Some _ _) (conj Hu Hu')) as Hauth.
  pose proof (proj2 (truthy_Some _ _) (conj Hu2 Hu')) as Hauth2.
  set (fileName := Js.template (Date_now env) (originalname image)) in *.
  set (row := insert_film env name (getPublicUrl env fileName) userId).
  assert (Hcreated : run (post_films env req) t b
            = (Normal {| status := 201;
                         json := SuccessData "Film added successfully." (Some row) |},
               {| films := t ++ [row];
                  bucket := <[fileName := {| object_body := buffer image;
                                             contentType := mimetype image |}]> b;
                  calls := [Storage (Upload fileName (buffer image) (mimetype image));
                            Sql (InsertFilm name (getPublicUrl env fileName) userId)] |})).
  { unfold_handler.
    rewrite Hauth, (proj2 (truthy_Some _ _) (conj Hn Hn')), Hf. simpl.
    fold fileName. rewrite Hup. simpl. by rewrite Hins. }
  rewrite Hcreated. eexists. split; [reflexivity|]. split; [reflexivity|]. simpl.
  assert (Hscoped : filter (scoped (generated_id env) userId) (t ++ [row])%list = [row]).
  { rewrite filter_app, Hnone. simpl. by rewrite filter_cons, decide_True. }
  assert (Hkey : Path.basename (getPublicUrl env fileName) = fileName).
  { rewrite Hurl. apply basename_segment; [apply template_nonempty|done]. }
  assert (Hrows : select_image_url (generated_id env) userId (t ++ [row])
                  = [getPublicUrl env fileName])
    by (unfold select_image_url; by rewrite Hscoped).
  unfold_handler. rewrite Hauth2, Hid. simpl. rewrite Hsel. simpl.
  rewrite Hrows. simpl. rewrite Hdel. simpl.
  rewrite rowCount_select, Hrows. simpl.
  rewrite Hkey, Hrm. simpl. repeat f_equal.
  - unfold delete_where. rewrite filter_app, filter_cons, decide_False, app_nil_r.
    + by apply delete_where_none.
    + intros Hns. by apply Hns.
  - by apply delete_insert_id.
Qed.

Lemma post_then_delete_films_witness :
  let req := Scenario.request "u1" "" (Some "Dune") (Some Scenario.poster) in
  let req2 := Scenario.request "u1" "4" None None in
  let created := run (post_films Scenario.healthy req) Scenario.table Scenario.objects in
  ∃ r, created.1 = Normal r ∧ status r = 201%nat
  ∧ run (delete_films Scenario.healthy req2) (films created.2) (bucket created.2)
    = (Normal {| status := 200;
                 json := SuccessMessage "Film deleted successfully." |},
       {| films := Scenario.table; bucket := Scenario.objects;
          calls := [Sql (SelectImageUrl "4" "u1"); Sql (DeleteFilm "4" "u1");
                    Storage (Remove ["1700000000000-dune.png"])] |}).
Proof.
  apply (post_then_delete_films Scenario.healthy Scenario.healthy
           (Scenario.request "u1" "" (Some "Dune") (Some Scenario.poster))
           (Scenario.request "u1" "4" None None)
           "u1" "Dune" "https://cdn.test/film-images" Scenario.poster);
    try reflexivity; try discriminate.
  intros f Hf Hid.
  repeat (apply elem_of_cons in Hf as [->|Hf]); try discriminate.
  by apply elem_of_nil in Hf.
Defined.

End AcrossHandlers.
